(** * Zerodha mock MCP server: the market-aware dispatcher and its protocol adapter

    A shallow embedding of the serverless handler of the repository (the file
    with [updateMarket], [executeTool] and [handler]) and the properties of its
    account state machine, market tick, OHLC generator and JSON-RPC adapter.

    Modelling conventions.
    - A finite JavaScript number is an exact rational ([Q]): binary64
      rounding error and overflow are abstracted.  Market prices stay finite
      and are plain [Q]; the numbers of an account (balance, quantity,
      cost-basis price) can become [NaN] or infinite ([parseInt] of a
      non-number, division by a zero quantity) and are [JS.jsnum].
      Where the last digit of a double would decide, a statement leaves
      room for that rounding ([floatNoise], [covers]).
    - [Math.random()] reads the next element of an arbitrary sequence kept in
      the world; [Date.now()] / [new Date()] is the [now] argument of a call.
    - Dates are day numbers.  The history loop steps back with [setDate]
      in the local time of the host and prints the UTC day; the model is
      that of a host on UTC, where pass [i] is dated [i] days before the
      call.  On a host with daylight saving a printed day can come twice
      or be left out, so statements about dates say no more than their
      order and the date of the call.
    - Strings are sequences of bytes and [toUpperCase] maps the ASCII
      letters; statements about symbols the market does not list are for
      symbols written in ASCII ([asciiOnly]).
    - [console.log] and the CORS headers are not modelled. *)

From Stdlib Require Import ZArith QArith Qround Qabs Qminmax Lqa Lia.
From Stdlib Require Import String Ascii List Sorted.
From stdpp Require Import gmap strings.

Import ListNotations.
Local Open Scope string_scope.
Local Open Scope Q_scope.

(** ** JavaScript values *)

Module JS.

Definition Qltb (x y : Q) : bool := negb (Qle_bool y x).

(** [parseFloat(x.toFixed(2))] on a finite number: [toFixed] picks the
    integer [n] with [n / 100] nearest to [|x|], the larger one on a tie,
    and restores the sign. *)
Definition round2 (x : Q) : Q :=
  let n := Qfloor (Qabs x * 100 + (1 # 2)) in
  if Qle_bool 0 x then n # 100 else (- n) # 100.

(** A JavaScript number: a finite value, [NaN], or an infinity with its
    sign ([Inf true] is [-Infinity]).  Zero is unsigned and divides as
    [+0]. *)
Inductive jsnum : Type :=
| Num (q : Q)
| NaN
| Inf (negative : bool).

Definition isNeg (q : Q) : bool := Qltb q 0.

Definition neg (a : jsnum) : jsnum :=
  match a with
  | Num x => Num (- x)
  | NaN => NaN
  | Inf s => Inf (negb s)
  end.

Definition add (a b : jsnum) : jsnum :=
  match a, b with
  | Num x, Num y => Num (x + y)
  | NaN, _ | _, NaN => NaN
  | Inf s, Inf t => if Bool.eqb s t then Inf s else NaN
  | Inf s, Num _ | Num _, Inf s => Inf s
  end.

Definition sub (a b : jsnum) : jsnum := add a (neg b).

Definition mul (a b : jsnum) : jsnum :=
  match a, b with
  | Num x, Num y => Num (x * y)
  | NaN, _ | _, NaN => NaN
  | Inf s, Inf t => Inf (xorb s t)
  | Inf s, Num y | Num y, Inf s =>
      if Qeq_bool y 0 then NaN else Inf (xorb s (isNeg y))
  end.

Definition div (a b : jsnum) : jsnum :=
  match a, b with
  | Num x, Num y =>
      if Qeq_bool y 0
      then (if Qeq_bool x 0 then NaN else Inf (isNeg x))
      else Num (x / y)
  | NaN, _ | _, NaN => NaN
  | Inf _, Inf _ => NaN
  | Inf s, Num y => Inf (xorb s (isNeg y))
  | Num _, Inf _ => Num 0
  end.

(** [a < b]; every comparison with [NaN] is false. *)
Definition lt (a b : jsnum) : bool :=
  match a, b with
  | Num x, Num y => Qltb x y
  | NaN, _ | _, NaN => false
  | Inf s, Inf t => s && negb t
  | Inf s, Num _ => s
  | Num _, Inf t => negb t
  end.

(** [a === b] *)
Definition eqb (a b : jsnum) : bool :=
  match a, b with
  | Num x, Num y => Qeq_bool x y
  | Inf s, Inf t => Bool.eqb s t
  | _, _ => false
  end.

(** [a === 0] *)
Definition isZero (a : jsnum) : bool :=
  match a with
  | Num x => Qeq_bool x 0
  | _ => false
  end.

(** [parseFloat(a.toFixed(2))]: [toFixed] prints [NaN] and the infinities
    by name and [parseFloat] reads them back. *)
Definition toFixed2 (a : jsnum) : jsnum :=
  match a with
  | Num x => Num (round2 x)
  | other => other
  end.

(** [parseInt(v)] where [v] is the optional integer the argument denotes;
    anything else parses to [NaN]. *)
Definition parseInt (v : option Z) : jsnum :=
  match v with
  | Some z => Num (inject_Z z)
  | None => NaN
  end.

(** Equality of numbers as values: [Qeq] on finite ones. *)
Definition same (a b : jsnum) : Prop :=
  match a, b with
  | Num x, Num y => x == y
  | NaN, NaN => True
  | Inf s, Inf t => s = t
  | _, _ => False
  end.

(** [a || b] on optional numbers: [undefined] and [0] are falsy. *)
Definition orNum (a : option Q) (b : Q) : Q :=
  match a with
  | Some x => if Qeq_bool x 0 then b else x
  | None => b
  end.

(** Truthiness of an optional string: [undefined] and the empty string
    are falsy. *)
Definition truthyStr (a : option string) : option string :=
  match a with
  | Some EmptyString => None
  | other => other
  end.

(** [a || b] on optional strings. *)
Definition orStr (a b : option string) : option string :=
  match truthyStr a with
  | Some s => Some s
  | None => b
  end.

(** [a === s] for a string literal [s]. *)
Definition eqTo (a : option string) (s : string) : bool :=
  match a with
  | Some x => String.eqb x s
  | None => false
  end.

(** [String.prototype.toUpperCase] on ASCII text. *)
Definition upperAscii (c : ascii) : ascii :=
  let n := nat_of_ascii c in
  if (97 <=? n)%nat && (n <=? 122)%nat then ascii_of_nat (n - 32) else c.

Fixpoint toUpperCase (s : string) : string :=
  match s with
  | EmptyString => EmptyString
  | String c rest => String (upperAscii c) (toUpperCase rest)
  end.

End JS.

(** ** Data model *)

Record Holding : Type := mkHolding {
  h_symbol : string;
  h_qty : JS.jsnum;
  h_price : JS.jsnum
}.

Record Order : Type := mkOrder {
  o_id : Q;
  o_symbol : string;
  o_qty : JS.jsnum;
  o_side : option string;
  o_price : Q;
  o_time : Z
}.

Record Account : Type := mkAccount {
  balance : JS.jsnum;
  holdings : list Holding;
  orders : list Order
}.

Inductive Trend : Type := UP | DOWN | FLAT.

Record Stock : Type := mkStock {
  price : Q;
  trend : Trend
}.

Inductive Sentiment : Type := POSITIVE | NEGATIVE.

Record News : Type := mkNews {
  headline : string;
  sentiment : Sentiment;
  n_symbol : string
}.

(** [stocks] is a JavaScript object read by key and walked by [for ... in]
    in insertion order: an association list with the keys in that order. *)
Record MarketState : Type := mkMarket {
  stocks : list (string * Stock);
  lastUpdate : Z;
  news : list News
}.

(** The module-level state of the handler, the sequence [Math.random] reads
    from, and how many of its elements have been consumed. *)
Record World : Type := mkWorld {
  sessions : gmap string Account;
  marketState : MarketState;
  entropy : nat -> Q;
  drawn : nat
}.

Definition createAccount : Account :=
  {| balance := JS.Num 100000;
     holdings := [ mkHolding "TCS" (JS.Num 10) (JS.Num 3400);
                   mkHolding "RELIANCE" (JS.Num 5) (JS.Num 2800);
                   mkHolding "INFY" (JS.Num 15) (JS.Num 1500) ];
     orders := [] |}.

(** The market as the module initialises it at load time [t0]. *)
Definition initialMarket (t0 : Z) : MarketState :=
  {| stocks := [ ("TCS", mkStock 3450 UP);
                 ("RELIANCE", mkStock 2850 FLAT);
                 ("INFY", mkStock 1520 DOWN);
                 ("HDFC", mkStock 1680 UP);
                 ("WIPRO", mkStock 460 DOWN);
                 ("TATAMOTORS", mkStock 980 UP) ];
     lastUpdate := t0;
     news := [ mkNews "TCS bags $1B deal from UK insurer" POSITIVE "TCS";
               mkNews "Reliance expected to post weak quarterly results" NEGATIVE "RELIANCE";
               mkNews "Tech sector rally continues as Nasdaq surges" POSITIVE "INFY";
               mkNews "Auto sales drop 5% in March" NEGATIVE "TATAMOTORS" ] |}.

Definition initialWorld (t0 : Z) (rnd : nat -> Q) : World :=
  {| sessions := ∅; marketState := initialMarket t0; entropy := rnd; drawn := 0 |}.

(** Reading a key of an object kept as an association list. *)
Fixpoint assoc {A : Type} (k : string) (l : list (string * A)) : option A :=
  match l with
  | [] => None
  | (k', v) :: rest => if String.eqb k' k then Some v else assoc k rest
  end.

(** [marketState.stocks[symbol]] *)
Definition stockOf (symbol : string) (l : list (string * Stock)) : option Stock :=
  assoc symbol l.

(** ** Effects: module state, [Math.random] and thrown errors *)

Inductive outcome (A : Type) : Type :=
| Return (a : A)
| Throw (message : string).

Arguments Return {A} a.
Arguments Throw {A} message.

(** A computation reads and writes the world; a thrown error keeps the
    writes made before it. *)
Definition M (A : Type) : Type := World -> outcome A * World.

Definition ret {A : Type} (a : A) : M A := fun w => (Return a, w).

Definition throw {A : Type} (message : string) : M A := fun w => (Throw message, w).

Definition bind {A B : Type} (m : M A) (k : A -> M B) : M B :=
  fun w =>
    match m w with
    | (Return a, w') => k a w'
    | (Throw e, w') => (Throw e, w')
    end.

Notation "'let*' x ':=' m 'in' k" := (bind m (fun x => k))
  (at level 10, x pattern, m at level 100, k at level 200).

Definition setSessions (s : gmap string Account) (w : World) : World :=
  {| sessions := s; marketState := marketState w; entropy := entropy w; drawn := drawn w |}.

Definition setMarket (m : MarketState) (w : World) : World :=
  {| sessions := sessions w; marketState := m; entropy := entropy w; drawn := drawn w |}.

Definition getMarket : M MarketState := fun w => (Return (marketState w), w).

(** [sessions.set(id, account)], also the write-back of an account object
    that was mutated in place. *)
Definition putAccount (id : string) (a : Account) : M unit :=
  fun w => (Return tt, setSessions (<[id := a]> (sessions w)) w).

(** [Math.random()] *)
Definition random : M Q :=
  fun w =>
    (Return (entropy w (drawn w)),
     {| sessions := sessions w; marketState := marketState w;
        entropy := entropy w; drawn := S (drawn w) |}).

(** [generateId()]: the token is a rendering of one random draw; the draw
    itself stands for it. *)
Definition generateId : M Q := random.

(** ** Sessions *)

Definition defaultSession : string := "demo-session".

Definition getSession (sessionId : option string) : M (string * Account) :=
  let id := match JS.truthyStr sessionId with
            | Some s => s
            | None => defaultSession
            end in
  fun w =>
    match sessions w !! id with
    | Some a => (Return (id, a), w)
    | None => (Return (id, createAccount), setSessions (<[id := createAccount]> (sessions w)) w)
    end.

(** ** Market tick *)

(** One instrument moved by the draw [r]. *)
Definition moveOf (r : Q) : Q := (r - (1 # 2)) * 10.

Definition tick (r : Q) (s : Stock) : Stock :=
  let move := moveOf r in
  {| price := JS.round2 (price s + move);
     trend := if JS.Qltb 0 move then UP else DOWN |}.

(** The [for (const symbol in marketState.stocks)] loop. *)
Fixpoint tickAll (l : list (string * Stock)) : M (list (string * Stock)) :=
  match l with
  | [] => ret []
  | (symbol, s) :: rest =>
      let* r := random in
      let* rest' := tickAll rest in
      ret ((symbol, tick r s) :: rest')
  end.

Definition refreshMs : Z := 5000.

Definition updateMarket (now : Z) : M unit :=
  let* m := getMarket in
  if (refreshMs <? now - lastUpdate m)%Z then
    let* stocks' := tickAll (stocks m) in
    fun w => (Return tt, setMarket {| stocks := stocks'; lastUpdate := now; news := news m |} w)
  else ret tt.

(** ** Tool arguments and results *)

(** The fields of [params] the tools read.  [p_qty] is the integer the
    [qty] argument denotes, if any; the other fields are absent or carry a
    value of the type the tool catalogue declares. *)
Record Params : Type := mkParams {
  p_symbol : option string;
  p_qty : option Z;
  p_side : option string;
  p_type : option string;
  p_price : option Q;
  p_days : option Q
}.

(** [{}] *)
Definition noParams : Params :=
  {| p_symbol := None; p_qty := None; p_side := None; p_type := None;
     p_price := None; p_days := None |}.

Record HoldingView : Type := mkHoldingView {
  hv_holding : Holding;
  current_price : JS.jsnum;
  pnl : JS.jsnum
}.

Record Candle : Type := mkCandle {
  c_date : Z;
  c_open : Q;
  c_high : Q;
  c_low : Q;
  c_close : Q;
  c_volume : Z
}.

Record Level : Type := mkLevel {
  l_price : Q;
  l_qty : Z
}.

(** What a tool returns.  [Rejected] and [Complete] are the objects with
    [status: 'REJECTED'] and [status: 'COMPLETE']; the [message] of a
    completed order, a rendering of its other fields, is left out. *)
Inductive ToolResult : Type :=
| InitDone (message : string) (bal : Q) (market_status : string)
| AccountInfo (id : string) (bal : JS.jsnum) (currency status : string)
| HoldingsList (hs : list HoldingView)
| OrdersList (os : list Order)
| ErrorResult (error : string)
| History (symbol : string) (history : list Candle)
| Rejected (reason : string)
| Complete (order_id : Q) (executed_price : Q)
| Quote (symbol : string) (p : Q) (t : Trend) (buy sell : list Level)
| MarketNews (headlines : list News) (overall : string)
| MarketStatus (status : string) (index_level : Q) (top_gainer top_loser : string)
    (active_symbols : list string).

Definition statusOf (r : ToolResult) : option string :=
  match r with
  | Rejected _ => Some "REJECTED"
  | Complete _ _ => Some "COMPLETE"
  | AccountInfo _ _ _ status => Some status
  | MarketStatus status _ _ _ _ => Some status
  | _ => None
  end.

(** The [switch] of the dispatcher. *)
Inductive Tool : Type :=
| ToolInit | GetAccount | GetHoldings | GetOrders | GetHistory
| PlaceOrder | GetQuote | GetMarketNews | GetMarketStatus.

Definition toolNames : list (string * Tool) :=
  [ ("init", ToolInit); ("get-account", GetAccount); ("get-holdings", GetHoldings);
    ("get-orders", GetOrders); ("get-history", GetHistory); ("place-order", PlaceOrder);
    ("get-quote", GetQuote); ("get-market-news", GetMarketNews);
    ("get-market-status", GetMarketStatus) ].

(** The [case] a tool name selects; [None] is [default].  The name is
    optional because [params.name] may be missing from a request. *)
Definition toolOf (toolName : option string) : option Tool :=
  match toolName with
  | Some name => assoc name toolNames
  | None => None
  end.

(** [`${toolName}`] *)
Definition showName (toolName : option string) : string :=
  match toolName with
  | Some name => name
  | None => "undefined"
  end.

(** The [TypeError] of [params.symbol.toUpperCase()] on a missing symbol. *)
Definition noSymbolError : string :=
  "Cannot read properties of undefined (reading 'toUpperCase')".

(** ** The tools *)

(** [h.symbol === symbol] *)
Definition holds (symbol : string) (h : Holding) : bool :=
  String.eqb (h_symbol h) symbol.

(** [account.holdings.find(h => h.symbol === symbol)] *)
Definition findHolding (symbol : string) (hs : list Holding) : option Holding :=
  List.find (holds symbol) hs.

(** Writing through the reference [find] returned: the first holding of
    the symbol is changed where it stands. *)
Fixpoint updateFound (symbol : string) (f : Holding -> Holding) (hs : list Holding)
  : list Holding :=
  match hs with
  | [] => []
  | h :: rest =>
      if holds symbol h then f h :: rest else h :: updateFound symbol f rest
  end.

(** The averaging of a BUY into an existing holding. *)
Definition buyMore (qty orderValue : JS.jsnum) (existing : Holding) : Holding :=
  let totalCost := JS.add (JS.mul (h_qty existing) (h_price existing)) orderValue in
  let qty' := JS.add (h_qty existing) qty in
  {| h_symbol := h_symbol existing;
     h_qty := qty';
     h_price := JS.toFixed2 (JS.div totalCost qty') |}.

Definition sellSome (qty : JS.jsnum) (existing : Holding) : Holding :=
  {| h_symbol := h_symbol existing;
     h_qty := JS.sub (h_qty existing) qty;
     h_price := h_price existing |}.

Inductive Settlement : Type :=
| Refused (reason : string)
| Settled (account : Account).

(** The validation and the balance and holdings writes of [place-order],
    for a listed symbol. *)
Definition settle (symbol : string) (qty : JS.jsnum) (side : option string)
    (execPrice : Q) (account : Account) : Settlement :=
  let orderValue := JS.mul qty (JS.Num execPrice) in
  if JS.eqTo side "BUY" then
    if JS.lt (balance account) orderValue then Refused "Insufficient funds"
    else
      Settled
        {| balance := JS.sub (balance account) orderValue;
           holdings :=
             match findHolding symbol (holdings account) with
             | Some _ => updateFound symbol (buyMore qty orderValue) (holdings account)
             | None => holdings account ++ [mkHolding symbol qty (JS.Num execPrice)]
             end;
           orders := orders account |}
  else if JS.eqTo side "SELL" then
    match findHolding symbol (holdings account) with
    | None => Refused "Insufficient holdings"
    | Some existing =>
        if JS.lt (h_qty existing) qty then Refused "Insufficient holdings"
        else
          let sold := updateFound symbol (sellSome qty) (holdings account) in
          Settled
            {| balance := JS.add (balance account) orderValue;
               holdings :=
                 if JS.isZero (JS.sub (h_qty existing) qty)
                 then List.filter (fun h => negb (holds symbol h)) sold
                 else sold;
               orders := orders account |}
    end
  else Settled account.

Definition pushOrder (o : Order) (a : Account) : Account :=
  {| balance := balance a; holdings := holdings a; orders := orders a ++ [o] |}.

(** [marketState.stocks[symbol]?.price || params.price || 0] *)
Definition executionPrice (listed : option Stock) (params : Params) : Q :=
  JS.orNum (option_map price listed) (JS.orNum (p_price params) 0).

(** [case 'place-order'] *)
Definition placeOrder (now : Z) (params : Params) (id : string) (account : Account)
  : M ToolResult :=
  match p_symbol params with
  | None => throw noSymbolError
  | Some s =>
      let symbol := JS.toUpperCase s in
      let qty := JS.parseInt (p_qty params) in
      let side := JS.orStr (p_side params) (p_type params) in
      let* m := getMarket in
      let listed := stockOf symbol (stocks m) in
      let execPrice := executionPrice listed params in
      match listed with
      | None => ret (Rejected "Symbol not found")
      | Some _ =>
          match settle symbol qty side execPrice account with
          | Refused reason => ret (Rejected reason)
          | Settled account' =>
              let* orderId := generateId in
              let order := mkOrder orderId symbol qty side execPrice now in
              let* _ := putAccount id (pushOrder order account') in
              ret (Complete orderId execPrice)
          end
      end
  end.

(** The calendar day of an instant, as a day number. *)
Definition dayOf (now : Z) : Z := (now / 86400000)%Z.

(** One pass of the history loop from the close [currentClose], with the
    four draws in the order the code takes them.  The result is the pushed
    record and the close of the day before. *)
Definition candleOf (date : Z) (currentClose r1 r2 r3 r4 : Q) : Candle * Q :=
  let volatility := currentClose * (2 # 100) in
  let change := (r1 - (1 # 2)) * volatility in
  let prevClose := currentClose - change in
  let open := prevClose in
  let close := currentClose in
  let high := Qmax open close + r2 * volatility * (1 # 2) in
  let low := Qmin open close - r3 * volatility * (1 # 2) in
  ({| c_date := date;
      c_open := JS.round2 open;
      c_high := JS.round2 high;
      c_low := JS.round2 low;
      c_close := JS.round2 close;
      c_volume := (Qfloor (r4 * 1000000) + 50000)%Z |},
   prevClose).

(** [for (let i = 0; i < days; i++)] with [n] passes left; the records come
    in the order they are pushed, newest day first. *)
Fixpoint historyLoop (n : nat) (today i : Z) (currentClose : Q) : M (list Candle) :=
  match n with
  | O => ret []
  | S n' =>
      let* r1 := random in
      let* r2 := random in
      let* r3 := random in
      let* r4 := random in
      let (candle, prevClose) := candleOf (today - i) currentClose r1 r2 r3 r4 in
      let* rest := historyLoop n' today (i + 1) prevClose in
      ret (candle :: rest)
  end.

(** How many [i = 0, 1, ...] satisfy [i < days]. *)
Definition passes (days : Q) : nat := Z.to_nat (Qceiling days).

(** [case 'get-history'] *)
Definition getHistory (now : Z) (params : Params) : M ToolResult :=
  match p_symbol params with
  | None => throw noSymbolError
  | Some s =>
      let histSymbol := JS.toUpperCase s in
      let* m := getMarket in
      match stockOf histSymbol (stocks m) with
      | None => ret (ErrorResult "Symbol not found")
      | Some stock =>
          let days := JS.orNum (p_days params) 30 in
          let* history := historyLoop (passes days) (dayOf now) 0 (price stock) in
          ret (History histSymbol (reverse history))
      end
  end.

(** The annotation of one holding in [get-holdings]. *)
Definition withValue (m : MarketState) (h : Holding) : HoldingView :=
  let currentPrice :=
    match stockOf (h_symbol h) (stocks m) with
    | Some stock => if Qeq_bool (price stock) 0 then h_price h else JS.Num (price stock)
    | None => h_price h
    end in
  {| hv_holding := h;
     current_price := currentPrice;
     pnl := JS.toFixed2 (JS.mul (JS.sub currentPrice (h_price h)) (h_qty h)) |}.

(** [case 'get-quote']; the depth prices are the numbers [toFixed] prints. *)
Definition getQuote (params : Params) : M ToolResult :=
  match p_symbol params with
  | None => throw noSymbolError
  | Some s =>
      let* m := getMarket in
      match stockOf (JS.toUpperCase s) (stocks m) with
      | None => ret (ErrorResult "Symbol not found")
      | Some stock =>
          ret (Quote (JS.toUpperCase s) (price stock) (trend stock)
                 [mkLevel (JS.round2 (price stock * (999 # 1000))) 100]
                 [mkLevel (JS.round2 (price stock * (1001 # 1000))) 150])
      end
  end.

(** [entries.sort(([, a], [, b]) => b.price - a.price)]: a stable sort,
    dearest first. *)
Fixpoint insertByPrice (x : string * Stock) (l : list (string * Stock))
  : list (string * Stock) :=
  match l with
  | [] => [x]
  | y :: rest =>
      if Qle_bool (price (snd y)) (price (snd x)) then x :: y :: rest
      else y :: insertByPrice x rest
  end.

Definition sortByPrice (l : list (string * Stock)) : list (string * Stock) :=
  fold_right insertByPrice [] l.

(** [case 'get-market-status'] *)
Definition getMarketStatus : M ToolResult :=
  let* m := getMarket in
  let sorted := sortByPrice (stocks m) in
  let* r := random in
  match head sorted, last sorted with
  | Some first, Some final =>
      ret (MarketStatus "OPEN" (18500 + r * 100) (fst first) (fst final)
             (map fst (stocks m)))
  | _, _ => throw "Cannot read properties of undefined (reading '0')"
  end.

(** [executeTool(toolName, params, sessionId)] at the instant [now]. *)
Definition executeTool (now : Z) (toolName : option string) (params : Params)
    (sessionId : option string) : M ToolResult :=
  let* _ := updateMarket now in
  let* (id, account) := getSession sessionId in
  match toolOf toolName with
  | Some ToolInit =>
      let* _ := putAccount id createAccount in
      ret (InitDone "Account reset successful. Market is open." 100000 "OPEN")
  | Some GetAccount => ret (AccountInfo id (balance account) "INR" "ACTIVE")
  | Some GetHoldings =>
      let* m := getMarket in
      ret (HoldingsList (map (withValue m) (holdings account)))
  | Some GetOrders => ret (OrdersList (orders account))
  | Some GetHistory => getHistory now params
  | Some PlaceOrder => placeOrder now params id account
  | Some GetQuote => getQuote params
  | Some GetMarketNews =>
      let* m := getMarket in
      ret (MarketNews (news m) "MIXED")
  | Some GetMarketStatus => getMarketStatus
  | None => throw ("Unknown tool: " ++ showName toolName)
  end.

(** ** The protocol adapter *)

(** The [params] object of a request body: the fields the JSON-RPC methods
    read, and the tool arguments the simple protocol reads from the same
    object. *)
Record RequestParams : Type := mkRequestParams {
  rp_name : option string;
  rp_arguments : option Params;
  rp_uri : option string;
  rp_fields : Params
}.

Record Body : Type := mkBody {
  jsonrpc : option string;
  b_method : option string;
  b_params : option RequestParams;
  b_id : option Z;
  b_sessionId : option string;
  b_tool : option string
}.

(** [{}] *)
Definition noBody : Body :=
  {| jsonrpc := None; b_method := None; b_params := None; b_id := None;
     b_sessionId := None; b_tool := None |}.

Record Request : Type := mkRequest {
  req_method : string;
  x_session_id : option string;
  req_body : option Body
}.

(** The [result] member of a JSON-RPC answer; of the static catalogues only
    the names are kept. *)
Inductive RpcPayload : Type :=
| Handshake (protocolVersion serverName serverVersion : string)
| EmptyResult
| ToolCatalogue (names : list string)
| ResourceCatalogue (uris : list string)
| ResourceContents (uri mimeType text : string)
| PromptCatalogue
| ToolContent (result : ToolResult) (isError : bool).

Inductive Response : Type :=
| EndWith (status : Z)
| RpcResult (id : option Z) (result : RpcPayload)
| RpcError (id : option Z) (code : Z) (message : string)
| Json (status : Z) (result : ToolResult)
| JsonError (status : Z) (error : string).

Definition newline : string := String (ascii_of_nat 10) EmptyString.

Definition showSentiment (s : Sentiment) : string :=
  match s with
  | POSITIVE => "POSITIVE"
  | NEGATIVE => "NEGATIVE"
  end.

(** [marketState.news.map(...).join('\n')] inside its frame. *)
Definition alertsText (m : MarketState) : string :=
  let line n := "[" ++ showSentiment (sentiment n) ++ "] " ++ n_symbol n ++ ": " ++ headline n in
  "=== MARKET ALERTS ===" ++ newline
    ++ String.concat newline (map line (news m)) ++ newline
    ++ "=====================".

(** The [TypeError] of reading a member of a missing [params]. *)
Definition noParamsError (member : string) : string :=
  "Cannot read properties of undefined (reading '" ++ member ++ "')".

(** The JSON-RPC methods the adapter answers, in the order it tests them. *)
Definition rpcMethods : list string :=
  [ "initialize"; "notifications/initialized"; "ping"; "tools/list";
    "resources/list"; "resources/read"; "prompts/list"; "tools/call" ].

(** The branch for [body.jsonrpc === '2.0']. *)
Definition handleRpc (now : Z) (body : Body) : World -> Response * World :=
  let method := b_method body in
  let params := b_params body in
  let id := b_id body in
  fun w =>
    if JS.eqTo method "initialize" then
      (RpcResult id (Handshake "2024-11-05" "zerodha-mock" "1.0.0"), w)
    else if JS.eqTo method "notifications/initialized" then (RpcResult id EmptyResult, w)
    else if JS.eqTo method "ping" then (RpcResult id EmptyResult, w)
    else if JS.eqTo method "tools/list" then
      (RpcResult id (ToolCatalogue (map fst toolNames)), w)
    else if JS.eqTo method "resources/list" then
      (RpcResult id (ResourceCatalogue ["market://alerts"]), w)
    else if JS.eqTo method "resources/read" then
      match params with
      | None => (JsonError 500 (noParamsError "uri"), w)
      | Some ps =>
          if JS.eqTo (rp_uri ps) "market://alerts" then
            (RpcResult id
               (ResourceContents "market://alerts" "text/plain" (alertsText (marketState w))),
             w)
          else (RpcError id (-32602) "Resource not found", w)
      end
    else if JS.eqTo method "prompts/list" then (RpcResult id PromptCatalogue, w)
    else if JS.eqTo method "tools/call" then
      match params with
      | None => (RpcError id (-32603) (noParamsError "name"), w)
      | Some ps =>
          let arguments := match rp_arguments ps with Some a => a | None => noParams end in
          match executeTool now (rp_name ps) arguments (Some defaultSession) w with
          | (Return result, w') => (RpcResult id (ToolContent result false), w')
          | (Throw message, w') => (RpcError id (-32603) message, w')
          end
      end
    else (RpcError id (-32601) "Method not found", w).

(** [handler(req, res)]: the answer written to [res] and the state left. *)
Definition handler (now : Z) (req : Request) : World -> Response * World :=
  fun w =>
    if String.eqb (req_method req) "OPTIONS" then (EndWith 200, w)
    else
      let body := match req_body req with Some b => b | None => noBody end in
      if JS.eqTo (jsonrpc body) "2.0" then handleRpc now body w
      else
        let sessionId := JS.orStr (x_session_id req) (b_sessionId body) in
        match JS.truthyStr (b_tool body) with
        | None => (JsonError 400 "Missing tool parameter", w)
        | Some tool =>
            let simpleParams :=
              match b_params body with Some ps => rp_fields ps | None => noParams end in
            match executeTool now (Some tool) simpleParams sessionId w with
            | (Return result, w') => (Json 200 result, w')
            | (Throw message, w') => (JsonError 500 message, w')
            end
        end.

(** ** Vocabulary of the statements *)

(** *** A call: the session it addresses and the market it sees *)

(** The key [getSession] resolves a session id to. *)
Definition sessionKey (sessionId : option string) : string :=
  match JS.truthyStr sessionId with
  | Some s => s
  | None => defaultSession
  end.

(** The account of a session: the stored one, or the seeded account its
    first reference creates. *)
Definition accountOf (w : World) (sessionId : option string) : Account :=
  match sessions w !! sessionKey sessionId with
  | Some a => a
  | None => createAccount
  end.

(** The world once [updateMarket] has run at [now]. *)
Definition refreshed (now : Z) (w : World) : World := snd (updateMarket now w).

(** The market a call at [now] works with. *)
Definition marketAt (now : Z) (w : World) : MarketState := marketState (refreshed now w).

(** [n] more draws taken. *)
Definition advance (n : nat) (w : World) : World :=
  {| sessions := sessions w; marketState := marketState w;
     entropy := entropy w; drawn := n + drawn w |}.

(** The stocks after a tick that takes its draws from position [k] on. *)
Fixpoint tickFrom (rnd : nat -> Q) (k : nat) (l : list (string * Stock))
  : list (string * Stock) :=
  match l with
  | [] => []
  | (symbol, s) :: rest => (symbol, tick (rnd k) s) :: tickFrom rnd (S k) rest
  end.

(** The world once [getSession] has run: the session exists. *)
Definition touched (sessionId : option string) (w : World) : World :=
  setSessions (<[sessionKey sessionId := accountOf w sessionId]> (sessions w)) w.

(** The world a call leaves when it only read the account. *)
Definition opened (now : Z) (sessionId : option string) (w : World) : World :=
  touched sessionId (refreshed now w).

(** *** A place-order call *)

(** The symbol, quantity and side a call carries, as the code reads them. *)
Definition symbolOf (s : string) : string := JS.toUpperCase s.

Definition qtyOf (params : Params) : JS.jsnum := JS.parseInt (p_qty params).

Definition sideOf (params : Params) : option string :=
  JS.orStr (p_side params) (p_type params).

(** [qty * price] *)
Definition orderValueOf (params : Params) (execPrice : Q) : JS.jsnum :=
  JS.mul (qtyOf params) (JS.Num execPrice).

(** The record an accepted order appends, with the id drawn in world [w]. *)
Definition orderOf (now : Z) (params : Params) (s : string) (execPrice : Q) (w : World)
  : Order :=
  mkOrder (entropy w (drawn w)) (symbolOf s) (qtyOf params) (sideOf params) execPrice now.

(** The world an accepted order leaves from [w]: one draw taken for the id
    and the account of the session replaced. *)
Definition filed (id : string) (a : Account) (w : World) : World :=
  setSessions (<[id := a]> (sessions w)) (advance 1 w).

(** [a] is below zero. *)
Definition negative (a : JS.jsnum) : bool := JS.lt a (JS.Num 0).

(** *** Sample calls *)

Definition evenDraws : nat -> Q := fun _ => 1 # 2.

(** The server right after start-up at instant [0]. *)
Definition freshWorld : World := initialWorld 0 evenDraws.

Definition orderParams (symbol : string) (qty : Z) (side : string) : Params :=
  {| p_symbol := Some symbol; p_qty := Some qty; p_side := Some side;
     p_type := None; p_price := None; p_days := None |}.

(** *** The market tick and the history walk, draw by draw *)

(** The records the history loop pushes in [n] passes from the close
    [currentClose], with the draws taken from position [k] on. *)
Fixpoint historyFrom (rnd : nat -> Q) (k n : nat) (today i : Z) (currentClose : Q)
  : list Candle :=
  match n with
  | O => []
  | S n' =>
      let (candle, prevClose) :=
        candleOf (today - i) currentClose (rnd k) (rnd (S k)) (rnd (S (S k)))
          (rnd (S (S (S k)))) in
      candle :: historyFrom rnd (S (S (S (S k)))) n' today (i + 1) prevClose
  end.

(** Every draw lies in the range of [Math.random]. *)
Definition drawsInRange (w : World) : Prop :=
  forall n, 0 <= entropy w n /\ entropy w n < 1.

(** A number with at most two decimals: rounding leaves its value. *)
Definition twoDecimals (q : Q) : Prop := JS.round2 q == q.

(** The same said without [JS.round2]: a whole number of hundredths. *)
Definition inCents (q : Q) : Prop := exists cents : Z, q == cents # 100.

(** The room a bound leaves for binary64.  The code rounds every operation
    to a double, an error of one part in 2^53 of the result; a bound that
    compares a computed number with an exact one adds a billionth, and a
    billionth of the magnitude [x] of the numbers involved. *)
Definition floatNoise (x : Q) : Q := (1 # 1000000000) * (1 + Qabs x).

(** The balance [b] covers the amount [v], and not just to the last digit
    of the two.  Amounts that agree to the cent are left out: there the
    rounding of the product [qty * price] in binary64 decides whether
    [balance < orderValue]. *)
Definition covers (b v : Q) : Prop := v + floatNoise v <= b.

(** Every price of the market has at most two decimals. *)
Definition pricedInCents (m : MarketState) : Prop :=
  Forall (fun entry => twoDecimals (price (snd entry))) (stocks m).

Definition historyParams (symbol : string) (days : option Q) : Params :=
  {| p_symbol := Some symbol; p_qty := None; p_side := None; p_type := None;
     p_price := None; p_days := days |}.

(** The number of entries a [days] argument asks for: absent, the default
    of thirty; present, a positive whole number. *)
Definition daysAsked (params : Params) (n : nat) : Prop :=
  (p_days params = None /\ n = 30%nat)
  \/ (exists d, p_days params = Some d /\ d == inject_Z (Z.of_nat n) /\ (0 < n)%nat).

(** The high and the low of a record bracket its open and its close. *)
Definition bracketed (c : Candle) : Prop :=
  Qmax (c_open c) (c_close c) <= c_high c /\ c_low c <= Qmin (c_open c) (c_close c).

(** *** Runs of calls *)

Record Call : Type := mkCall {
  call_at : Z;
  call_tool : option string;
  call_params : Params;
  call_session : option string
}.

(** The calls of a list made one after the other, with their results. *)
Fixpoint run (calls : list Call) (w : World) : list (outcome ToolResult) * World :=
  match calls with
  | [] => ([], w)
  | c :: rest =>
      let (r, w1) := executeTool (call_at c) (call_tool c) (call_params c) (call_session c) w in
      let (rs, w2) := run rest w1 in
      (r :: rs, w2)
  end.

(** *** A long bear market *)

(** Draws that push every price down by five a tick for six hundred draws
    and sit at nine tenths from then on. *)
Definition bearDraws : nat -> Q := fun n => if (n <? 600)%nat then 0 else 9 # 10.

(** A hundred balance enquiries, six seconds apart. *)
Definition enquiries : list Call :=
  map (fun k => mkCall (6000 * Z.of_nat k) (Some "get-account") noParams None) (seq 1 100).

(** The server after them. *)
Definition bearWorld : World := snd (run enquiries (initialWorld 0 bearDraws)).

(** *** Names the dispatcher and the adapter recognise *)

Definition knownTool (toolName : option string) : Prop :=
  exists name, toolName = Some name /\ In name (map fst toolNames).

Definition knownMethod (method : option string) : Prop :=
  exists name, method = Some name /\ In name rpcMethods.

(** A JSON-RPC request: any HTTP method but OPTIONS, and a body marked
    [jsonrpc: "2.0"]. *)
Definition rpcRequest (req : Request) (body : Body) : Prop :=
  req_method req <> "OPTIONS" /\ req_body req = Some body /\ jsonrpc body = Some "2.0".

Definition rpcBody (id : option Z) (method : string) (ps : option RequestParams) : Body :=
  {| jsonrpc := Some "2.0"; b_method := Some method; b_params := ps;
     b_id := id; b_sessionId := None; b_tool := None |}.

Definition rpcCall (id : option Z) (method : string) (ps : option RequestParams) : Request :=
  {| req_method := "POST"; x_session_id := None; req_body := Some (rpcBody id method ps) |}.

(** *** Lots and their weighted mean *)










(** *** A creeping price *)

(** Draws that leave every price where it is, except that the fifth
    instrument (WIPRO) rises by 0.61, 0.01 and 0.02 in the first three
    ticks. *)
Definition creepDraws : nat -> Q :=
  fun n =>
    if (n =? 5)%nat then 561 # 1000
    else if (n =? 12)%nat then 501 # 1000
    else if (n =? 19)%nat then 502 # 1000
    else 1 # 2.

Definition buyAt (now : Z) (symbol : string) (qty : Z) : Call :=
  mkCall now (Some "place-order") (orderParams symbol qty "BUY") None.

(** A hundred WIPRO bought at start-up, then one more after each tick. *)
Definition creepBuys : list Call :=
  [ buyAt 1000 "WIPRO" 100; buyAt 7000 "WIPRO" 1; buyAt 13000 "WIPRO" 1;
    buyAt 19000 "WIPRO" 1 ].


(** *** Where a call leaves the world *)

(** The world after a call at [now] for a session: the market as refreshed,
    [n] draws taken after the refresh, and the account [a] stored for the
    session. *)
Definition landed (now : Z) (sessionId : option string) (a : Account) (n : nat)
    (w : World) : World :=
  setSessions (<[sessionKey sessionId := a]> (sessions w)) (advance n (refreshed now w)).

(** The tools that write to the account of the session. *)
Definition writes (toolName : option string) : bool :=
  match toolOf toolName with
  | Some ToolInit | Some PlaceOrder => true
  | _ => false
  end.

(** *** More sample calls *)

Definition callOf (now : Z) (tool : string) (params : Params) (session : string) : Call :=
  mkCall now (Some tool) params (Some session).

(** Alice sells three TCS; the world she leaves. *)
Definition aliceWorld : World :=
  snd (executeTool 1000 (Some "place-order") (orderParams "TCS" 3 "SELL") (Some "alice")
         freshWorld).

(** *** Well-kept holdings *)

Definition symbolsOf (a : Account) : list string := map h_symbol (holdings a).

(** No symbol is held twice, and every symbol held is listed in the
    market. *)
Definition tidyHoldings (m : MarketState) (a : Account) : Prop :=
  NoDup (symbolsOf a) /\
  Forall (fun symbol => is_Some (stockOf symbol (stocks m))) (symbolsOf a).

(** The market lists the instruments the server starts with, and every
    stored account has tidy holdings. *)
Definition tidyWorld (w : World) : Prop :=
  map fst (stocks (marketState w)) = map fst (stocks (initialMarket 0)) /\
  forall key a, sessions w !! key = Some a -> tidyHoldings (marketState w) a.

(** *** Arguments with one field replaced *)

Definition withSymbol (symbol : option string) (p : Params) : Params :=
  {| p_symbol := symbol; p_qty := p_qty p; p_side := p_side p; p_type := p_type p;
     p_price := p_price p; p_days := p_days p |}.

Definition withPrice (limit : option Q) (p : Params) : Params :=
  {| p_symbol := p_symbol p; p_qty := p_qty p; p_side := p_side p; p_type := p_type p;
     p_price := limit; p_days := p_days p |}.

(** *** Tools that take a symbol *)

Definition symbolTools : list string := ["get-history"; "place-order"; "get-quote"].

(** The string is written in ASCII: every byte is below 128.  On such a
    string [JS.toUpperCase] is [String.prototype.toUpperCase]. *)
Fixpoint asciiOnly (s : string) : bool :=
  match s with
  | EmptyString => true
  | String c rest => (nat_of_ascii c <? 128)%nat && asciiOnly rest
  end.

(** The answer a tool gives for a symbol the market does not list. *)
Definition notFound (tool : string) : ToolResult :=
  if String.eqb tool "place-order" then Rejected "Symbol not found"
  else ErrorResult "Symbol not found".

(** *** Reading the market *)

(** [a] comes no later than [b] when instruments are listed dearest
    first. *)
Definition dearer (a b : string * Stock) : Prop := price (snd b) <= price (snd a).


(** *** Requests *)

(** [req.body || {}] *)
Definition bodyOf (req : Request) : Body :=
  match req_body req with
  | Some b => b
  | None => noBody
  end.

(** The request runs no tool: it is an OPTIONS request, or a JSON-RPC
    request for a method other than tools/call, or a plain request without
    a tool name. *)
Definition runsNoTool (req : Request) : Prop :=
  req_method req = "OPTIONS"
  \/ (jsonrpc (bodyOf req) = Some "2.0" /\ b_method (bodyOf req) <> Some "tools/call")
  \/ (jsonrpc (bodyOf req) <> Some "2.0" /\ JS.truthyStr (b_tool (bodyOf req)) = None).

(** The session key a request that runs a tool addresses: the fixed one
    for JSON-RPC, otherwise the header, or the body when the header is
    missing or empty. *)
Definition addressed (req : Request) : string :=
  if JS.eqTo (jsonrpc (bodyOf req)) "2.0" then defaultSession
  else sessionKey (JS.orStr (x_session_id req) (b_sessionId (bodyOf req))).

Definition plainCall (header bodySession : option string) (tool : string) : Request :=
  {| req_method := "POST"; x_session_id := header;
     req_body := Some {| jsonrpc := None; b_method := None; b_params := None;
                         b_id := None; b_sessionId := bodySession; b_tool := Some tool |} |}.

(** * Properties *)

Lemma advance_0 w : advance 0 w = w.
Proof. by destruct w. Qed.

Lemma advance_S n w : advance n (advance 1 w) = advance (S n) w.
Proof. unfold advance; simpl. f_equal. lia. Qed.

Lemma tickAll_spec l w :
  tickAll l w = (Return (tickFrom (entropy w) (drawn w) l), advance (length l) w).
Proof.
  revert w. induction l as [|[symbol s] rest IH]; intros w; simpl.
  - by rewrite advance_0.
  - unfold bind, random at 1. simpl. rewrite IH. simpl.
    unfold ret. f_equal. unfold advance; simpl. f_equal. lia.
Qed.

Lemma updateMarket_spec now w :
  updateMarket now w =
    if (refreshMs <? now - lastUpdate (marketState w))%Z
    then (Return tt,
          setMarket {| stocks := tickFrom (entropy w) (drawn w) (stocks (marketState w));
                       lastUpdate := now;
                       news := news (marketState w) |}
            (advance (length (stocks (marketState w))) w))
    else (Return tt, w).
Proof.
  unfold updateMarket, bind, getMarket. simpl.
  destruct (refreshMs <? now - lastUpdate (marketState w))%Z; [|done].
  by rewrite tickAll_spec.
Qed.

Lemma refreshed_sessions now w : sessions (refreshed now w) = sessions w.
Proof.
  unfold refreshed. rewrite updateMarket_spec.
  by destruct (refreshMs <? now - lastUpdate (marketState w))%Z.
Qed.

Lemma refreshed_entropy now w : entropy (refreshed now w) = entropy w.
Proof.
  unfold refreshed. rewrite updateMarket_spec.
  by destruct (refreshMs <? now - lastUpdate (marketState w))%Z.
Qed.

Lemma updateMarket_returns now w : updateMarket now w = (Return tt, refreshed now w).
Proof.
  unfold refreshed. rewrite updateMarket_spec.
  by destruct (refreshMs <? now - lastUpdate (marketState w))%Z.
Qed.

Lemma getSession_spec sessionId w :
  getSession sessionId w =
    (Return (sessionKey sessionId, accountOf w sessionId), touched sessionId w).
Proof.
  unfold getSession, touched, accountOf, sessionKey.
  destruct (sessions w !! _) as [a|] eqn:E; [|done].
  rewrite insert_id; [|done]. by destruct w.
Qed.

Lemma accountOf_touched sessionId w :
  accountOf (touched sessionId w) sessionId = accountOf w sessionId.
Proof. unfold accountOf at 1, touched. simpl. by rewrite lookup_insert_eq. Qed.

Lemma accountOf_refreshed now w sessionId :
  accountOf (refreshed now w) sessionId = accountOf w sessionId.
Proof. unfold accountOf. by rewrite refreshed_sessions. Qed.

Lemma accountOf_opened now sessionId w :
  accountOf (opened now sessionId w) sessionId = accountOf w sessionId.
Proof. unfold opened. by rewrite accountOf_touched, accountOf_refreshed. Qed.

Lemma marketState_opened now sessionId w :
  marketState (opened now sessionId w) = marketAt now w.
Proof. done. Qed.

(** ** The dispatcher, tool by tool *)

Lemma executeTool_open now toolName params sessionId w :
  executeTool now toolName params sessionId w =
    (let id := sessionKey sessionId in
     let account := accountOf w sessionId in
     match toolOf toolName with
     | Some ToolInit =>
         let* _ := putAccount id createAccount in
         ret (InitDone "Account reset successful. Market is open." 100000 "OPEN")
     | Some GetAccount => ret (AccountInfo id (balance account) "INR" "ACTIVE")
     | Some GetHoldings =>
         let* m := getMarket in
         ret (HoldingsList (map (withValue m) (holdings account)))
     | Some GetOrders => ret (OrdersList (orders account))
     | Some GetHistory => getHistory now params
     | Some PlaceOrder => placeOrder now params id account
     | Some GetQuote => getQuote params
     | Some GetMarketNews =>
         let* m := getMarket in
         ret (MarketNews (news m) "MIXED")
     | Some GetMarketStatus => getMarketStatus
     | None => throw ("Unknown tool: " ++ showName toolName)
     end) (opened now sessionId w).
Proof.
  unfold executeTool, bind at 1. rewrite updateMarket_returns.
  unfold bind at 1. rewrite getSession_spec, accountOf_refreshed. done.
Qed.

Lemma executeTool_placeOrder now params sessionId w :
  executeTool now (Some "place-order") params sessionId w =
    placeOrder now params (sessionKey sessionId) (accountOf w sessionId)
      (opened now sessionId w).
Proof. by rewrite executeTool_open. Qed.

Lemma executeTool_getHistory now params sessionId w :
  executeTool now (Some "get-history") params sessionId w =
    getHistory now params (opened now sessionId w).
Proof. by rewrite executeTool_open. Qed.

Lemma executeTool_unknown now toolName params sessionId w :
  toolOf toolName = None ->
  executeTool now toolName params sessionId w =
    (Throw ("Unknown tool: " ++ showName toolName), opened now sessionId w).
Proof. intros H. rewrite executeTool_open, H. done. Qed.

Lemma placeOrder_listed now params id account w s stock :
  p_symbol params = Some s ->
  stockOf (symbolOf s) (stocks (marketState w)) = Some stock ->
  placeOrder now params id account w =
    let execPrice := executionPrice (Some stock) params in
    match settle (symbolOf s) (qtyOf params) (sideOf params) execPrice account with
    | Refused reason => (Return (Rejected reason), w)
    | Settled account' =>
        (Return (Complete (entropy w (drawn w)) execPrice),
         filed id (pushOrder (orderOf now params s execPrice w) account') w)
    end.
Proof.
  intros Hs Hl. unfold placeOrder. rewrite Hs.
  unfold bind at 1, getMarket. fold (symbolOf s). rewrite Hl.
  fold (qtyOf params) (sideOf params).
  destruct (settle _ _ _ _ _); [done|].
  unfold bind, generateId, random, putAccount, ret; simpl.
  done.
Qed.

Lemma accountOf_filed sessionId a w :
  accountOf (filed (sessionKey sessionId) a w) sessionId = a.
Proof. unfold accountOf, filed. simpl. by rewrite lookup_insert_eq. Qed.

(** A place-order call on a listed symbol, in one equation. *)
Lemma placeOrder_call now params sessionId w s stock :
  p_symbol params = Some s ->
  stockOf (symbolOf s) (stocks (marketAt now w)) = Some stock ->
  executeTool now (Some "place-order") params sessionId w =
    let execPrice := executionPrice (Some stock) params in
    let w1 := opened now sessionId w in
    match settle (symbolOf s) (qtyOf params) (sideOf params) execPrice
            (accountOf w sessionId) with
    | Refused reason => (Return (Rejected reason), w1)
    | Settled account' =>
        (Return (Complete (entropy w1 (drawn w1)) execPrice),
         filed (sessionKey sessionId)
           (pushOrder (orderOf now params s execPrice w1) account') w1)
    end.
Proof.
  intros Hs Hl. rewrite executeTool_placeOrder.
  by rewrite (placeOrder_listed _ _ _ _ _ s stock).
Qed.

(** ** Arithmetic of JavaScript numbers *)

Lemma Qltb_lt x y : JS.Qltb x y = true <-> x < y.
Proof.
  unfold JS.Qltb. rewrite negb_true_iff, <- not_true_iff_false, Qle_bool_iff.
  split; [apply Qnot_le_lt | apply Qlt_not_le].
Qed.

Lemma Qltb_ge x y : JS.Qltb x y = false <-> y <= x.
Proof. unfold JS.Qltb. by rewrite negb_false_iff, Qle_bool_iff. Qed.

Lemma sub_not_negative a b : JS.lt a b = false -> negative (JS.sub a b) = false.
Proof.
  unfold negative.
  destruct a as [x| |s], b as [y| |t]; simpl; try done.
  - rewrite !Qltb_ge. lra.
  - by destruct s, t.
Qed.

(** ** Buying *)

(** C1. A BUY on a listed symbol whose order value exceeds the balance is
    rejected for insufficient funds and leaves the account of the session
    (balance, holdings and orders) as it was; and whenever the balance is
    below zero after a BUY, that BUY changed nothing, so no BUY makes the
    balance negative. *)
Theorem buy_beyond_balance_rejected now params sessionId w s stock :
  p_symbol params = Some s ->
  sideOf params = Some "BUY" ->
  stockOf (symbolOf s) (stocks (marketAt now w)) = Some stock ->
  let execPrice := executionPrice (Some stock) params in
  let result := executeTool now (Some "place-order") params sessionId w in
  let before := accountOf w sessionId in
  let after := accountOf (snd result) sessionId in
  (JS.lt (balance before) (orderValueOf params execPrice) = true ->
   fst result = Return (Rejected "Insufficient funds") /\
   balance after = balance before /\ holdings after = holdings before /\
   after = before)
  /\ (negative (balance after) = true -> after = before).
Proof.
  intros Hs Hside Hl execPrice result before after.
  subst result after. rewrite (placeOrder_call _ _ _ _ s stock Hs Hl).
  cbv zeta. fold execPrice before. unfold settle. rewrite Hside. simpl.
  fold (orderValueOf params execPrice).
  destruct (JS.lt (balance before) (orderValueOf params execPrice)) eqn:Hlt; simpl.
  - rewrite accountOf_opened. fold before. by repeat split.
  - split; [done|]. rewrite accountOf_filed. simpl.
    by rewrite (sub_not_negative _ _ Hlt).
Qed.

Lemma buy_beyond_balance_rejected_witness :
  let result := executeTool 1000 (Some "place-order") (orderParams "tcs" 100 "BUY")
                  None freshWorld in
  fst result = Return (Rejected "Insufficient funds") /\
  accountOf (snd result) None = accountOf freshWorld None.
Proof.
  intros result.
  destruct (buy_beyond_balance_rejected 1000 (orderParams "tcs" 100 "BUY") None freshWorld
              "tcs" (mkStock 3450 UP) eq_refl eq_refl eq_refl) as [H _].
  destruct (H eq_refl) as (Hr & _ & _ & Ha). by split.
Defined.

(** ** Holdings as a list *)

Lemma holds_true symbol h : holds symbol h = true <-> h_symbol h = symbol.
Proof. unfold holds. apply String.eqb_eq. Qed.

Lemma updateFound_none symbol f hs :
  findHolding symbol hs = None -> updateFound symbol f hs = hs.
Proof.
  unfold findHolding. induction hs as [|h rest IH]; simpl; [done|].
  destruct (holds symbol h); [done|]. intros H. by rewrite IH.
Qed.

(** What [updateFound] leaves in the list: the old entries, and the
    rewritten first holding of the symbol. *)
Lemma elem_of_updateFound symbol f hs h' :
  h' ∈ updateFound symbol f hs ->
  h' ∈ hs \/ exists h, findHolding symbol hs = Some h /\ h' = f h.
Proof.
  unfold findHolding. induction hs as [|h rest IH]; simpl; [by left|].
  destruct (holds symbol h).
  - intros [->|H]%elem_of_cons; [right; eauto|left; by constructor].
  - intros [->|H]%elem_of_cons; [left; by constructor|].
    destruct (IH H) as [?|?]; [left; by constructor|by right].
Qed.


Lemma filter_not_holds symbol hs :
  Forall (fun h => h_symbol h <> symbol) (List.filter (fun h => negb (holds symbol h)) hs).
Proof.
  apply List.Forall_forall. intros h [_ H]%List.filter_In.
  apply negb_true_iff in H. intros E%holds_true. congruence.
Qed.

Lemma eqTo_true a s : JS.eqTo a s = true <-> a = Some s.
Proof.
  destruct a as [x|]; simpl; [|done].
  rewrite String.eqb_eq. split; congruence.
Qed.

Lemma eqTo_false a s : a <> Some s -> JS.eqTo a s = false.
Proof. intros H. apply not_true_iff_false. by rewrite eqTo_true. Qed.


(** ** Selling *)

(** C3. A SELL on a listed symbol: when the symbol is not held, or the
    quantity asked exceeds the quantity held, the order is rejected and the
    holdings (the whole account) stay as they were; when the quantity asked
    equals the quantity held, the order completes and no entry of the symbol
    is left in the holdings; and any holding whose quantity is below zero
    after the call was there before it, so the holding a SELL writes never
    drops below zero. *)
Theorem sell_checked_against_holding now params sessionId w s stock :
  p_symbol params = Some s ->
  sideOf params = Some "SELL" ->
  stockOf (symbolOf s) (stocks (marketAt now w)) = Some stock ->
  let execPrice := executionPrice (Some stock) params in
  let result := executeTool now (Some "place-order") params sessionId w in
  let before := accountOf w sessionId in
  let after := accountOf (snd result) sessionId in
  let held := findHolding (symbolOf s) (holdings before) in
  ((held = None \/ exists h, held = Some h /\ JS.lt (h_qty h) (qtyOf params) = true) ->
   fst result = Return (Rejected "Insufficient holdings") /\
   holdings after = holdings before /\ after = before)
  /\ (forall h, held = Some h -> JS.eqb (h_qty h) (qtyOf params) = true ->
      (exists id, fst result = Return (Complete id execPrice)) /\
      Forall (fun h' => h_symbol h' <> symbolOf s) (holdings after))
  /\ (forall h', h' ∈ holdings after -> negative (h_qty h') = true ->
      h' ∈ holdings before).
Proof.
  intros Hs Hside Hl execPrice result before after held.
  subst result after. rewrite (placeOrder_call _ _ _ _ s stock Hs Hl).
  cbv zeta. fold execPrice before. unfold settle. rewrite Hside. simpl.
  fold held. destruct held as [existing|] eqn:Hheld.
  2: { simpl. rewrite accountOf_opened. fold before. by repeat split. }
  destruct (JS.lt (h_qty existing) (qtyOf params)) eqn:Hlt; simpl.
  { rewrite accountOf_opened. fold before. split; [done|]. split; [|done].
    intros h [= <-] Heq. exfalso. unfold JS.eqb, JS.lt in *.
    destruct (h_qty existing) as [x| |a], (qtyOf params) as [y| |b]; try done.
    - apply Qeq_bool_eq in Heq. apply Qltb_lt in Hlt. lra.
    - by destruct a, b. }
  rewrite accountOf_filed. simpl. split; [|split].
  - intros [?|(h & [= <-] & Hlt')]; congruence.
  - intros h [= <-] Heq. split; [eauto|].
    assert (JS.isZero (JS.sub (h_qty existing) (qtyOf params)) = true) as ->.
    { unfold qtyOf in *. destruct (p_qty params) as [z|]; simpl in *;
        destruct (h_qty existing) as [x| |a]; simpl in *; try done.
      apply Qeq_bool_eq in Heq. apply Qeq_eq_bool. lra. }
    apply filter_not_holds.
  - intros h' Hin Hneg.
    assert (h' ∈ updateFound (symbolOf s) (sellSome (qtyOf params)) (holdings before)) as Hin'.
    { destruct (JS.isZero _); [|done].
      apply list_elem_of_In in Hin. apply List.filter_In in Hin as [Hin _].
      by apply list_elem_of_In. }
    apply elem_of_updateFound in Hin' as [?|(h & Hfind & ->)]; [done|].
    unfold held in Hheld. rewrite Hheld in Hfind. injection Hfind as <-.
    simpl in Hneg. by rewrite (sub_not_negative _ _ Hlt) in Hneg.
Qed.

Lemma sell_checked_against_holding_witness :
  (let result := executeTool 1000 (Some "place-order") (orderParams "tcs" 11 "SELL")
                   None freshWorld in
   fst result = Return (Rejected "Insufficient holdings") /\
   holdings (accountOf (snd result) None) = holdings (accountOf freshWorld None))
  /\
  (let result := executeTool 1000 (Some "place-order") (orderParams "tcs" 10 "SELL")
                   None freshWorld in
   Forall (fun h' => h_symbol h' <> "TCS") (holdings (accountOf (snd result) None))).
Proof.
  split.
  - destruct (sell_checked_against_holding 1000 (orderParams "tcs" 11 "SELL") None
                freshWorld "tcs" (mkStock 3450 UP) eq_refl eq_refl eq_refl) as [H _].
    destruct H as (Hr & Hh & _); [right; eexists; split; reflexivity|]. by split.
  - destruct (sell_checked_against_holding 1000 (orderParams "tcs" 10 "SELL") None
                freshWorld "tcs" (mkStock 3450 UP) eq_refl eq_refl eq_refl) as (_ & H & _).
    exact (proj2 (H _ eq_refl eq_refl)).
Defined.

(** ** Orders of another side, and rejected orders *)

(** C9. A place-order call on a listed symbol whose side is neither BUY
    nor SELL is not rejected: it returns status COMPLETE, appends one order
    record to the orders of the session, and leaves the balance and the
    holdings as they were. *)
Theorem other_side_completes_untouched now params sessionId w s stock :
  p_symbol params = Some s ->
  stockOf (symbolOf s) (stocks (marketAt now w)) = Some stock ->
  sideOf params <> Some "BUY" ->
  sideOf params <> Some "SELL" ->
  let execPrice := executionPrice (Some stock) params in
  let result := executeTool now (Some "place-order") params sessionId w in
  let before := accountOf w sessionId in
  let after := accountOf (snd result) sessionId in
  exists id,
    fst result = Return (Complete id execPrice) /\
    statusOf (Complete id execPrice) = Some "COMPLETE" /\
    orders after =
      (orders before
         ++ [mkOrder id (symbolOf s) (qtyOf params) (sideOf params) execPrice now])%list /\
    balance after = balance before /\
    holdings after = holdings before.
Proof.
  intros Hs Hl Hbuy Hsell execPrice result before after.
  subst result after. rewrite (placeOrder_call _ _ _ _ s stock Hs Hl).
  cbv zeta. fold execPrice before. unfold settle.
  rewrite (eqTo_false _ _ Hbuy), (eqTo_false _ _ Hsell). simpl.
  rewrite accountOf_filed. eexists. by repeat split.
Qed.

Lemma other_side_completes_untouched_witness :
  let result := executeTool 1000 (Some "place-order") (orderParams "tcs" 3 "HOLD")
                  None freshWorld in
  exists id,
    fst result = Return (Complete id 3450) /\
    balance (accountOf (snd result) None) = JS.Num 100000.
Proof.
  intros result.
  destruct (other_side_completes_untouched 1000 (orderParams "tcs" 3 "HOLD") None freshWorld
              "tcs" (mkStock 3450 UP) eq_refl eq_refl) as (id & Hr & _ & _ & Hb & _);
    [discriminate | discriminate |].
  exists id. split; [exact Hr | exact Hb].
Defined.

(** Every way a place-order call can end. *)
Lemma placeOrder_outcomes now params sessionId w :
  let result := executeTool now (Some "place-order") params sessionId w in
  let before := accountOf w sessionId in
  let after := accountOf (snd result) sessionId in
  (fst result = Throw noSymbolError /\ after = before)
  \/ (exists reason,
        fst result = Return (Rejected reason) /\ after = before /\
        (reason = "Symbol not found" \/ reason = "Insufficient funds" \/
         reason = "Insufficient holdings"))
  \/ (exists id execPrice o,
        fst result = Return (Complete id execPrice) /\
        orders after = (orders before ++ [o])%list /\
        o_id o = id /\ o_price o = execPrice).
Proof.
  intros result before after. subst result after.
  destruct (p_symbol params) as [s|] eqn:Hs.
  2: { left. rewrite executeTool_placeOrder. unfold placeOrder. rewrite Hs.
       simpl. by rewrite accountOf_opened. }
  right.
  destruct (stockOf (symbolOf s) (stocks (marketAt now w))) as [stock|] eqn:Hl.
  2: { left. exists "Symbol not found". rewrite executeTool_placeOrder.
       unfold placeOrder. rewrite Hs. unfold bind, getMarket. fold (symbolOf s).
       rewrite marketState_opened, Hl. simpl. rewrite accountOf_opened. auto. }
  rewrite (placeOrder_call _ _ _ _ s stock Hs Hl). cbv zeta.
  destruct (settle _ _ _ _ _) as [reason|account'] eqn:Hsettle.
  - left. exists reason. simpl. rewrite accountOf_opened. repeat split.
    unfold settle in Hsettle.
    repeat match type of Hsettle with
           | context [if ?c then _ else _] => destruct c
           | context [match ?c with Some _ => _ | None => _ end] => destruct c
           end; inversion Hsettle; auto.
  - right. simpl. rewrite accountOf_filed.
    assert (orders account' = orders before) as Horders.
    { unfold settle in Hsettle.
      repeat match type of Hsettle with
             | context [if ?c then _ else _] => destruct c
             | context [match findHolding ?a ?b with Some _ => _ | None => _ end] =>
                 destruct (findHolding a b)
             end; inversion Hsettle; auto. }
    eexists _, _, _. split; [reflexivity|]. simpl. rewrite Horders.
    split; [reflexivity|by split].
Qed.

(** C10. Whenever place-order returns status REJECTED, the reason is one
    of the three the dispatcher knows and the orders of the session (the
    whole account) are as they were; and every entry of the orders list
    after a place-order call is an entry that was there before, or the
    record of this call, which returned status COMPLETE under that record's
    id and price. *)
Theorem rejected_order_not_recorded now params sessionId w :
  let result := executeTool now (Some "place-order") params sessionId w in
  let before := accountOf w sessionId in
  let after := accountOf (snd result) sessionId in
  (forall reason, fst result = Return (Rejected reason) ->
     statusOf (Rejected reason) = Some "REJECTED" /\
     (reason = "Symbol not found" \/ reason = "Insufficient funds" \/
      reason = "Insufficient holdings") /\
     orders after = orders before /\ after = before)
  /\ (forall o, o ∈ orders after ->
        o ∈ orders before \/ fst result = Return (Complete (o_id o) (o_price o))).
Proof.
  intros result before after.
  pose proof (placeOrder_outcomes now params sessionId w) as H.
  cbv zeta in H. fold result in H. fold before after in H.
  destruct H
    as [[Hr Ha]|[(reason & Hr & Ha & Hreason)|(id & p & o & Hr & Ho & Hid & Hp)]].
  - split; [congruence|]. intros o. rewrite Ha. auto.
  - split.
    + intros reason' E. rewrite Hr in E. injection E as <-.
      by rewrite Ha.
    + intros o. rewrite Ha. auto.
  - split; [congruence|].
    intros o'. rewrite Ho. intros [?|Hin]%elem_of_app; [by left|right].
    apply list_elem_of_singleton in Hin as ->. by rewrite Hid, Hp.
Qed.

Lemma rejected_order_not_recorded_witness :
  let result := executeTool 1000 (Some "place-order") (orderParams "acme" 1 "BUY")
                  None freshWorld in
  orders (accountOf (snd result) None) = orders (accountOf freshWorld None).
Proof.
  intros result.
  destruct (rejected_order_not_recorded 1000 (orderParams "acme" 1 "BUY") None freshWorld)
    as [H _].
  destruct (H "Symbol not found" eq_refl) as (_ & _ & Ho & _). exact Ho.
Defined.

(** ** Rounding to two decimals *)

Lemma Qfloor_unique x k : inject_Z k <= x -> x < inject_Z (k + 1) -> Qfloor x = k.
Proof.
  intros Hlo Hhi.
  pose proof (Qfloor_le x) as H1. pose proof (Qlt_floor x) as H2.
  assert (inject_Z (Qfloor x) < inject_Z (k + 1)) as H3 by lra.
  assert (inject_Z k < inject_Z (Qfloor x + 1)) as H4 by lra.
  rewrite <- Zlt_Qlt in H3, H4. lia.
Qed.

Lemma cents_value n : n # 100 == inject_Z n * (1 # 100).
Proof. rewrite Qmake_Qdiv. field. Qed.

Lemma cents_le a b : (a <= b)%Z -> a # 100 <= b # 100.
Proof. intros H. unfold Qle; simpl. lia. Qed.

(** The integer number of cents [round2] settles on. *)
Lemma round2_cents x :
  exists m : Z,
    (0 <= m)%Z /\
    inject_Z m <= Qabs x * 100 + (1 # 2) /\ Qabs x * 100 + (1 # 2) < inject_Z m + 1 /\
    JS.round2 x = (if Qle_bool 0 x then m # 100 else (- m) # 100).
Proof.
  exists (Qfloor (Qabs x * 100 + (1 # 2))). repeat split.
  - change 0%Z with (Qfloor 0). apply Qfloor_resp_le.
    pose proof (Qabs_nonneg x). lra.
  - apply Qfloor_le.
  - pose proof (Qlt_floor (Qabs x * 100 + (1 # 2))) as H.
    rewrite inject_Z_plus in H. exact H.
Qed.

Lemma round2_error x : Qabs (JS.round2 x - x) <= 1 # 200.
Proof.
  destruct (round2_cents x) as (m & _ & Hlo & Hhi & ->).
  apply Qabs_Qle_condition.
  destruct (Qle_bool 0 x) eqn:E.
  - apply Qle_bool_iff in E. rewrite (Qabs_pos x E) in Hlo, Hhi.
    rewrite cents_value. lra.
  - assert (x <= 0) as E'.
    { apply Qlt_le_weak, Qnot_le_lt. intros H%Qle_bool_iff. congruence. }
    rewrite (Qabs_neg x E') in Hlo, Hhi.
    rewrite cents_value, inject_Z_opp. lra.
Qed.

Lemma round2_monotone x y : x <= y -> JS.round2 x <= JS.round2 y.
Proof.
  intros Hxy. unfold JS.round2.
  set (mx := Qfloor (Qabs x * 100 + (1 # 2))).
  set (my := Qfloor (Qabs y * 100 + (1 # 2))).
  assert (0 <= mx)%Z as Hmx.
  { change 0%Z with (Qfloor 0). apply Qfloor_resp_le. pose proof (Qabs_nonneg x). lra. }
  assert (0 <= my)%Z as Hmy.
  { change 0%Z with (Qfloor 0). apply Qfloor_resp_le. pose proof (Qabs_nonneg y). lra. }
  destruct (Qle_bool 0 x) eqn:Ex, (Qle_bool 0 y) eqn:Ey.
  - apply Qle_bool_iff in Ex, Ey. apply cents_le, Qfloor_resp_le.
    rewrite (Qabs_pos x Ex), (Qabs_pos y Ey). lra.
  - apply Qle_bool_iff in Ex. exfalso.
    apply not_true_iff_false in Ey. apply Ey, Qle_bool_iff. lra.
  - apply cents_le. lia.
  - assert (x <= 0) as Ex'.
    { apply Qlt_le_weak, Qnot_le_lt. intros H%Qle_bool_iff. congruence. }
    assert (y <= 0) as Ey'.
    { apply Qlt_le_weak, Qnot_le_lt. intros H%Qle_bool_iff. congruence. }
    apply cents_le. apply Z.opp_le_mono. rewrite !Z.opp_involutive.
    apply Qfloor_resp_le. rewrite (Qabs_neg x Ex'), (Qabs_neg y Ey'). lra.
Qed.

Lemma round2_of_cents k : JS.round2 (k # 100) = k # 100.
Proof.
  unfold JS.round2.
  destruct (Qle_bool 0 (k # 100)) eqn:E.
  - apply Qle_bool_iff in E. f_equal. apply Qfloor_unique.
    + rewrite (Qabs_pos _ E), cents_value. lra.
    + rewrite (Qabs_pos _ E), cents_value, inject_Z_plus.
      change (inject_Z 1) with 1. lra.
  - assert (k # 100 <= 0) as E'.
    { apply Qlt_le_weak, Qnot_le_lt. intros H%Qle_bool_iff. congruence. }
    assert (Qfloor (Qabs (k # 100) * 100 + (1 # 2)) = (- k)%Z) as ->.
    { apply Qfloor_unique.
      - rewrite (Qabs_neg _ E'), cents_value, inject_Z_opp. lra.
      - rewrite (Qabs_neg _ E'), cents_value, inject_Z_plus, inject_Z_opp.
        change (inject_Z 1) with 1. lra. }
    by rewrite Z.opp_involutive.
Qed.

Lemma round2_twoDecimals x : twoDecimals (JS.round2 x).
Proof.
  unfold twoDecimals. destruct (round2_cents x) as (m & _ & _ & _ & ->).
  destruct (Qle_bool 0 x); by rewrite round2_of_cents.
Qed.


Lemma round2_inCents x : inCents (JS.round2 x).
Proof.
  destruct (round2_cents x) as (m & _ & _ & _ & ->).
  destruct (Qle_bool 0 x); eexists; reflexivity.
Qed.

Lemma floatNoise_nonneg x : 0 <= floatNoise x.
Proof. unfold floatNoise. pose proof (Qabs_nonneg x). nra. Qed.

Lemma covers_le b v : covers b v -> v <= b.
Proof. unfold covers. pose proof (floatNoise_nonneg v). lra. Qed.

(** Rounding moves a number by half a cent at most. *)
Lemma round2_near x m : Qabs (JS.round2 x - x) <= (1 # 200) + floatNoise m.
Proof. pose proof (round2_error x). pose proof (floatNoise_nonneg m). lra. Qed.

(** ** The history walk *)

Lemma historyLoop_spec n today i currentClose w :
  historyLoop n today i currentClose w =
    (Return (historyFrom (entropy w) (drawn w) n today i currentClose),
     advance (4 * n) w).
Proof.
  revert i currentClose w. induction n as [|n IH]; intros i currentClose w.
  - simpl. by rewrite advance_0.
  - cbn [historyLoop historyFrom]. unfold candleOf.
    unfold bind at 1, random at 1. cbn [entropy drawn].
    unfold bind at 1, random at 1. cbn [entropy drawn].
    unfold bind at 1, random at 1. cbn [entropy drawn].
    unfold bind at 1, random at 1. cbn [entropy drawn].
    unfold bind at 1. rewrite IH. cbn [entropy drawn].
    unfold ret, advance. cbn [sessions marketState entropy drawn]. f_equal. f_equal. lia.
Qed.

Lemma historyFrom_length rnd k n today i currentClose :
  length (historyFrom rnd k n today i currentClose) = n.
Proof.
  revert k i currentClose. induction n as [|n IH]; intros k i currentClose; [done|].
  simpl. by rewrite IH.
Qed.

Lemma historyFrom_head rnd k n today i currentClose c :
  head (historyFrom rnd k n today i currentClose) = Some c ->
  c_close c = JS.round2 currentClose /\ c_date c = (today - i)%Z.
Proof. destruct n; simpl; [done|]. by intros [= <-]. Qed.

(** In the order of generation each record closes where the one pushed
    before it opens, one day earlier. *)
Lemma historyFrom_chain rnd k n today i currentClose j a b :
  historyFrom rnd k n today i currentClose !! j = Some a ->
  historyFrom rnd k n today i currentClose !! S j = Some b ->
  c_close b = c_open a /\ c_date b = (c_date a - 1)%Z.
Proof.
  revert k i currentClose j. induction n as [|n IH]; intros k i currentClose j; [done|].
  cbn [historyFrom candleOf]. destruct j as [|j].
  - intros [= <-] Hb. change (historyFrom rnd (S (S (S (S k)))) n today (i + 1)
      (currentClose - (rnd k - (1 # 2)) * (currentClose * (2 # 100))) !! 0%nat = Some b) in Hb.
    rewrite <- head_lookup in Hb. apply historyFrom_head in Hb as [-> ->].
    simpl. split; [done|lia].
  - intros Ha Hb. exact (IH _ _ _ _ Ha Hb).
Qed.

Lemma reverse_adjacent {A : Type} (l : list A) k a b :
  reverse l !! k = Some a -> reverse l !! S k = Some b ->
  exists j, l !! j = Some b /\ l !! S j = Some a.
Proof.
  intros Ha Hb.
  pose proof (lookup_lt_Some _ _ _ Hb) as Hlen. rewrite length_reverse in Hlen.
  rewrite reverse_lookup in Ha by lia. rewrite reverse_lookup in Hb by lia.
  exists (length l - S (S k))%nat. split; [done|].
  by replace (S (length l - S (S k))) with (length l - S k)%nat by lia.
Qed.

Lemma getHistory_listed now params w s stock :
  p_symbol params = Some s ->
  stockOf (symbolOf s) (stocks (marketState w)) = Some stock ->
  getHistory now params w =
    let n := passes (JS.orNum (p_days params) 30) in
    (Return (History (symbolOf s)
               (reverse (historyFrom (entropy w) (drawn w) n (dayOf now) 0 (price stock)))),
     advance (4 * n) w).
Proof.
  intros Hs Hl. unfold getHistory. rewrite Hs. unfold bind at 1, getMarket.
  fold (symbolOf s). rewrite Hl. unfold bind. by rewrite historyLoop_spec.
Qed.

(** A get-history call on a listed symbol, in one equation. *)
Lemma getHistory_call now params sessionId w s stock :
  p_symbol params = Some s ->
  stockOf (symbolOf s) (stocks (marketAt now w)) = Some stock ->
  executeTool now (Some "get-history") params sessionId w =
    let w1 := opened now sessionId w in
    let n := passes (JS.orNum (p_days params) 30) in
    (Return (History (symbolOf s)
               (reverse (historyFrom (entropy w1) (drawn w1) n (dayOf now) 0 (price stock)))),
     advance (4 * n) w1).
Proof.
  intros Hs Hl. rewrite executeTool_getHistory.
  by rewrite (getHistory_listed _ _ _ s stock).
Qed.

(** C4. In the history get-history returns for a listed symbol, oldest day
    first, every record after the first opens at the close of the record
    before it: the older day's close is the newer day's open, as returned
    (both rounded to two decimals). *)
Theorem history_open_is_previous_close now params sessionId w s stock :
  p_symbol params = Some s ->
  stockOf (symbolOf s) (stocks (marketAt now w)) = Some stock ->
  exists history,
    fst (executeTool now (Some "get-history") params sessionId w) =
      Return (History (symbolOf s) history) /\
    forall k a b,
      history !! k = Some a -> history !! S k = Some b -> c_open b = c_close a.
Proof.
  intros Hs Hl. rewrite (getHistory_call _ _ _ _ s stock Hs Hl). cbv zeta.
  eexists. split; [reflexivity|].
  intros k a b Ha Hb.
  destruct (reverse_adjacent _ _ _ _ Ha Hb) as (j & Hj & HSj).
  by destruct (historyFrom_chain _ _ _ _ _ _ _ _ _ Hj HSj) as [-> _].
Qed.

Lemma history_open_is_previous_close_witness :
  exists history,
    fst (executeTool 1000 (Some "get-history") (historyParams "infy" (Some 5)) None
           freshWorld) = Return (History "INFY" history) /\
    forall k a b,
      history !! k = Some a -> history !! S k = Some b -> c_open b = c_close a.
Proof.
  exact (history_open_is_previous_close 1000 (historyParams "infy" (Some 5)) None
           freshWorld "infy" (mkStock 1520 DOWN) eq_refl eq_refl).
Defined.

Lemma candleOf_bracketed date currentClose r1 r2 r3 r4 :
  0 <= currentClose -> 0 <= r1 -> r1 < 1 -> 0 <= r2 -> 0 <= r3 ->
  bracketed (fst (candleOf date currentClose r1 r2 r3 r4)) /\
  0 <= snd (candleOf date currentClose r1 r2 r3 r4).
Proof.
  intros Hc Hr1 Hr1' Hr2 Hr3. unfold bracketed, candleOf. cbn [fst snd c_open c_close c_high c_low].
  set (volatility := currentClose * (2 # 100)).
  set (prevClose := currentClose - (r1 - (1 # 2)) * volatility).
  assert (0 <= volatility) as Hv by (unfold volatility; lra).
  assert (0 <= r2 * volatility * (1 # 2)) as Hup by nra.
  assert (0 <= r3 * volatility * (1 # 2)) as Hdown by nra.
  pose proof (Q.le_max_l prevClose currentClose) as Hmax1.
  pose proof (Q.le_max_r prevClose currentClose) as Hmax2.
  pose proof (Q.le_min_l prevClose currentClose) as Hmin1.
  pose proof (Q.le_min_r prevClose currentClose) as Hmin2.
  split; [split|].
  - apply Q.max_lub; apply round2_monotone; lra.
  - apply Q.min_glb; apply round2_monotone; lra.
  - unfold prevClose, volatility. nra.
Qed.

Lemma historyFrom_bracketed rnd k n today i currentClose :
  (forall j, 0 <= rnd j /\ rnd j < 1) ->
  0 <= currentClose ->
  Forall bracketed (historyFrom rnd k n today i currentClose).
Proof.
  intros Hrnd. revert k i currentClose.
  induction n as [|n IH]; intros k i currentClose Hc; [constructor|].
  cbn [historyFrom].
  destruct (candleOf_bracketed (today - i) currentClose (rnd k) (rnd (S k))
              (rnd (S (S k))) (rnd (S (S (S k)))) Hc) as [Hb Hp];
    try apply Hrnd.
  destruct (candleOf _ _ _ _ _ _) as [candle prevClose]. simpl in Hb, Hp.
  constructor; [done|]. by apply IH.
Qed.

Lemma assoc_Forall {A : Type} (P : A -> Prop) k (l : list (string * A)) v :
  Forall (fun entry => P (snd entry)) l -> assoc k l = Some v -> P v.
Proof.
  induction 1 as [|[k' v'] rest HP _ IH]; simpl; [done|].
  destruct (String.eqb k' k); [by intros [= <-]|done].
Qed.

Lemma tickFrom_pricedInCents rnd k l :
  Forall (fun entry => twoDecimals (price (snd entry))) (tickFrom rnd k l).
Proof.
  revert k. induction l as [|[symbol s] rest IH]; intros k; simpl; constructor; [|done].
  apply round2_twoDecimals.
Qed.

(** A market tick keeps the prices in cents. *)
Lemma pricedInCents_refreshed now w :
  pricedInCents (marketState w) -> pricedInCents (marketAt now w).
Proof.
  unfold marketAt, refreshed, pricedInCents. rewrite updateMarket_spec.
  destruct (refreshMs <? now - lastUpdate (marketState w))%Z; [|done].
  intros _. apply tickFrom_pricedInCents.
Qed.

Lemma passes_whole d n : d == inject_Z (Z.of_nat n) -> passes d = n.
Proof.
  intros H. unfold passes. rewrite H, Qceiling_Z. apply Nat2Z.id.
Qed.

Lemma daysAsked_passes params n :
  daysAsked params n -> passes (JS.orNum (p_days params) 30) = n.
Proof.
  intros [[-> ->]|(d & -> & Hd & Hn)]; simpl.
  - reflexivity.
  - assert (Qeq_bool d 0 = false) as ->.
    { apply not_true_iff_false. intros E%Qeq_bool_eq. rewrite E in Hd.
      assert (inject_Z 0 < inject_Z (Z.of_nat n)) as Hlt by (rewrite <- Zlt_Qlt; lia).
      change (inject_Z 0) with 0 in Hlt. lra. }
    by apply passes_whole.
Qed.

(** C5, as the code has it. For a listed symbol whose current price is not
    negative, in a market priced in cents, a get-history call asking for a
    positive whole number of days N (or for none, which means thirty)
    returns exactly N records in ascending order of date, the oldest
    first: no record is dated before the one it follows.  Each has its
    high at or above the larger of open and close and its low at or below
    the smaller, and the close of the last record is the current market
    price. *)
Theorem history_length_order_and_bounds now params sessionId w s stock n :
  p_symbol params = Some s ->
  stockOf (symbolOf s) (stocks (marketAt now w)) = Some stock ->
  daysAsked params n ->
  0 <= price stock ->
  drawsInRange w ->
  pricedInCents (marketState w) ->
  exists history,
    fst (executeTool now (Some "get-history") params sessionId w) =
      Return (History (symbolOf s) history) /\
    length history = n /\
    (forall k a b,
       history !! k = Some a -> history !! S k = Some b -> (c_date a <= c_date b)%Z) /\
    Forall bracketed history /\
    exists final, last history = Some final /\ c_close final == price stock.
Proof.
  intros Hs Hl Hdays Hprice Hdraws Hcents.
  rewrite (getHistory_call _ _ _ _ s stock Hs Hl). cbv zeta.
  rewrite (daysAsked_passes _ _ Hdays).
  eexists. split; [reflexivity|]. split; [|split; [|split]].
  - by rewrite length_reverse, historyFrom_length.
  - intros k a b Ha Hb.
    destruct (reverse_adjacent _ _ _ _ Ha Hb) as (j & Hj & HSj).
    destruct (historyFrom_chain _ _ _ _ _ _ _ _ _ Hj HSj) as [_ Hdate]. lia.
  - apply Forall_reverse, historyFrom_bracketed; [|done].
    unfold opened, touched. simpl. rewrite refreshed_entropy. apply Hdraws.
  - rewrite last_reverse.
    assert (0 < n)%nat as Hn.
    { destruct Hdays as [[_ ->]|(_ & _ & _ & ?)]; lia. }
    destruct n as [|n]; [lia|]. cbn [historyFrom candleOf head].
    eexists. split; [reflexivity|]. cbn [c_close].
    exact (assoc_Forall (fun st => twoDecimals (price st)) _ _ _
             (pricedInCents_refreshed now w Hcents) Hl).
Qed.

Lemma history_length_order_and_bounds_witness :
  exists history,
    fst (executeTool 1000 (Some "get-history") (historyParams "infy" (Some 5)) None
           freshWorld) = Return (History "INFY" history) /\
    length history = 5%nat /\
    Forall bracketed history.
Proof.
  assert (daysAsked (historyParams "infy" (Some 5)) 5) as Hdays.
  { right. exists 5. split; [reflexivity|]. split; [reflexivity|lia]. }
  assert (drawsInRange freshWorld) as Hdraws.
  { intros n. split; reflexivity || discriminate. }
  assert (pricedInCents (marketState freshWorld)) as Hcents.
  { repeat constructor. }
  destruct (history_length_order_and_bounds 1000 (historyParams "infy" (Some 5)) None
              freshWorld "infy" (mkStock 1520 DOWN) 5 eq_refl eq_refl Hdays
              ltac:(discriminate) Hdraws Hcents)
    as (history & Hr & Hlen & _ & Hb & _).
  exists history. by repeat split.
Defined.

(** C5 as stated fails. Asked for zero days the tool returns thirty
    records, not zero; and once a long run of falling ticks has taken a
    price below zero (here WIPRO at -40 after a hundred ticks), the high of
    a record lies below its open. *)
Lemma history_not_for_every_days_and_price :
  (exists history,
     fst (executeTool 1000 (Some "get-history") (historyParams "tcs" (Some 0)) None
            freshWorld) = Return (History "TCS" history) /\
     length history = 30%nat /\ length history <> 0%nat)
  /\
  (exists c,
     fst (executeTool 600001 (Some "get-history") (historyParams "wipro" (Some 1)) None
            bearWorld) = Return (History "WIPRO" [c]) /\
     c_high c < Qmax (c_open c) (c_close c)).
Proof.
  split.
  - rewrite (getHistory_call 1000 (historyParams "tcs" (Some 0)) None freshWorld "tcs"
               (mkStock 3450 UP) eq_refl eq_refl).
    cbv zeta. eexists. split; [reflexivity|].
    rewrite length_reverse, historyFrom_length. split; [reflexivity|discriminate].
  - eexists. split; [vm_compute; reflexivity|]. reflexivity.
Qed.

(** ** The market tick *)

Lemma tickFrom_length rnd k l : length (tickFrom rnd k l) = length l.
Proof.
  revert k. induction l as [|[symbol s] rest IH]; intros k; simpl; [done|].
  by rewrite IH.
Qed.

Lemma tickFrom_lookup rnd k l i symbol old :
  l !! i = Some (symbol, old) ->
  tickFrom rnd k l !! i = Some (symbol, tick (rnd (k + i)%nat) old).
Proof.
  revert k i. induction l as [|[symbol' s] rest IH]; intros k i; [done|].
  destruct i as [|i]; simpl.
  - intros [= -> ->]. by rewrite Nat.add_0_r.
  - intros H. rewrite (IH (S k) i H).
    by replace (S k + i)%nat with (k + S i)%nat by lia.
Qed.

Lemma moveOf_range r : 0 <= r -> r < 1 -> -5 <= moveOf r /\ moveOf r < 5.
Proof. unfold moveOf. intros. split; lra. Qed.

(** C6. A market refresh at most 5000 ms after the last update changes
    nothing at all: prices, trends, [lastUpdate] and every other part of
    the state stay as they were, so calls inside the window see the same
    values.  Later than that it sets [lastUpdate] to the current time and
    moves every instrument, in place and in order, by a delta of its own:
    the draw of [Math.random] for that instrument, mapped from [0, 1) onto
    [-5, 5); the new price is the old one plus the delta rounded to two
    decimals, that is a whole number of hundredths within half a cent
    ([floatNoise] apart) of the sum, and the trend is UP for a positive
    delta and DOWN otherwise. *)
Theorem market_refresh_gated now w :
  let m := marketState w in
  let m' := marketState (snd (updateMarket now w)) in
  ((now - lastUpdate m <= 5000)%Z -> updateMarket now w = (Return tt, w))
  /\ ((5000 < now - lastUpdate m)%Z -> drawsInRange w ->
      fst (updateMarket now w) = Return tt /\
      lastUpdate m' = now /\
      length (stocks m') = length (stocks m) /\
      forall i symbol old,
        stocks m !! i = Some (symbol, old) ->
        exists new delta,
          stocks m' !! i = Some (symbol, new) /\
          delta = (entropy w (drawn w + i)%nat - (1 # 2)) * 10 /\
          -5 <= delta /\ delta < 5 /\
          inCents (price new) /\
          Qabs (price new - (price old + delta))
            <= (1 # 200) + floatNoise (price old + delta) /\
          (0 < delta -> trend new = UP) /\
          (delta <= 0 -> trend new = DOWN)).
Proof.
  intros m m'. subst m'. rewrite updateMarket_spec. fold m. unfold refreshMs.
  split.
  - intros H. by destruct (Z.ltb_spec 5000 (now - lastUpdate m)); [lia|].
  - intros H Hdraws. destruct (Z.ltb_spec 5000 (now - lastUpdate m)); [|lia].
    cbn [fst snd setMarket marketState lastUpdate stocks].
    split; [done|]. split; [done|]. split; [apply tickFrom_length|].
    intros i symbol old Hi. eexists _, _. split; [by apply tickFrom_lookup|].
    split; [reflexivity|].
    destruct (Hdraws (drawn w + i)%nat) as [Hlo Hhi].
    destruct (moveOf_range _ Hlo Hhi) as [H1 H2]. unfold moveOf in H1, H2.
    split; [done|]. split; [done|].
    cbn [tick price trend]. unfold moveOf.
    split; [apply round2_inCents|]. split; [apply round2_near|]. split.
    + intros Hpos%Qltb_lt. by rewrite Hpos.
    + intros Hneg%Qltb_ge. by rewrite Hneg.
Qed.

Lemma market_refresh_gated_witness :
  updateMarket 5000 freshWorld = (Return tt, freshWorld)
  /\ lastUpdate (marketState (snd (updateMarket 5001 freshWorld))) = 5001%Z
  /\ exists new,
       stocks (marketState (snd (updateMarket 5001 freshWorld))) !! 0%nat = Some ("TCS", new) /\
       inCents (price new) /\
       Qabs (price new - (3450 + ((1 # 2) - (1 # 2)) * 10))
         <= (1 # 200) + floatNoise (3450 + ((1 # 2) - (1 # 2)) * 10).
Proof.
  assert (drawsInRange freshWorld) as Hdraws.
  { intros n. split; reflexivity || discriminate. }
  split; [|split].
  - apply (proj1 (market_refresh_gated 5000 freshWorld)). simpl. lia.
  - apply (proj2 (market_refresh_gated 5001 freshWorld)); [simpl; lia|exact Hdraws].
  - destruct (proj2 (market_refresh_gated 5001 freshWorld) ltac:(simpl; lia) Hdraws)
      as (_ & _ & _ & Hall).
    destruct (Hall 0%nat "TCS" (mkStock 3450 UP) eq_refl)
      as (new & delta & Hnew & -> & _ & _ & Hcents & Hnear & _).
    exists new. split; [exact Hnew|]. split; [exact Hcents|exact Hnear].
Defined.

(** ** Resetting a session *)

(** C7. Whatever the session and whatever its account held before, the
    init tool answers with the reset message and stores a freshly seeded
    account for the session: balance exactly 100000, the three preset
    holdings and no orders. *)
Theorem init_reseeds_account now params sessionId w :
  let result := executeTool now (Some "init") params sessionId w in
  fst result = Return (InitDone "Account reset successful. Market is open." 100000 "OPEN") /\
  sessions (snd result) !! sessionKey sessionId = Some createAccount /\
  accountOf (snd result) sessionId = createAccount /\
  balance createAccount = JS.Num 100000 /\
  holdings createAccount =
    [ mkHolding "TCS" (JS.Num 10) (JS.Num 3400);
      mkHolding "RELIANCE" (JS.Num 5) (JS.Num 2800);
      mkHolding "INFY" (JS.Num 15) (JS.Num 1500) ] /\
  orders createAccount = [].
Proof.
  intros result. subst result. rewrite executeTool_open. cbn [toolOf assoc toolNames].
  cbv zeta. simpl. unfold accountOf. simpl. rewrite lookup_insert_eq. by repeat split.
Qed.

(** ** Unknown tools and methods *)

Lemma assoc_None {A : Type} k (l : list (string * A)) :
  ~ In k (map fst l) -> assoc k l = None.
Proof.
  induction l as [|[k' v] rest IH]; simpl; [done|].
  intros H. destruct (String.eqb_spec k' k) as [->|_]; [|apply IH]; tauto.
Qed.

Lemma toolOf_unknown toolName : ~ knownTool toolName -> toolOf toolName = None.
Proof.
  intros H. destruct toolName as [name|]; [|done]. cbn [toolOf].
  apply assoc_None. intros Hin. apply H. by exists name.
Qed.

Lemma eqTo_unknown method name :
  ~ knownMethod method -> In name rpcMethods -> JS.eqTo method name = false.
Proof.
  intros H Hin. apply eqTo_false. intros ->. apply H. by exists name.
Qed.

(** C8. A tool name outside the dispatcher's cases makes it throw an error
    whose message carries the name; a tools/call request naming such a tool
    is answered with the JSON-RPC error -32603 and that message; and a
    JSON-RPC request for a method outside the adapter's list is answered
    with the error -32601, 'Method not found'. *)
Theorem unknown_tool_and_method_errors :
  (forall now toolName params sessionId w,
     ~ knownTool toolName ->
     fst (executeTool now toolName params sessionId w) =
       Throw ("Unknown tool: " ++ showName toolName))
  /\ (forall now req body ps w,
        rpcRequest req body ->
        b_method body = Some "tools/call" ->
        b_params body = Some ps ->
        ~ knownTool (rp_name ps) ->
        fst (handler now req w) =
          RpcError (b_id body) (-32603) ("Unknown tool: " ++ showName (rp_name ps)))
  /\ (forall now req body w,
        rpcRequest req body ->
        ~ knownMethod (b_method body) ->
        fst (handler now req w) = RpcError (b_id body) (-32601) "Method not found").
Proof.
  split; [|split].
  - intros now toolName params sessionId w H.
    by rewrite (executeTool_unknown _ _ _ _ _ (toolOf_unknown _ H)).
  - intros now req body ps w (Hopt & Hbody & Hrpc) Hm Hps Hunknown.
    unfold handler. apply String.eqb_neq in Hopt. rewrite Hopt, Hbody, Hrpc.
    cbn [JS.eqTo]. rewrite String.eqb_refl.
    unfold handleRpc. rewrite Hm, Hps. cbn.
    by rewrite (executeTool_unknown _ _ _ _ _ (toolOf_unknown _ Hunknown)).
  - intros now req body w (Hopt & Hbody & Hrpc) Hunknown.
    unfold handler. apply String.eqb_neq in Hopt. rewrite Hopt, Hbody, Hrpc.
    cbn [JS.eqTo]. rewrite String.eqb_refl.
    unfold handleRpc.
    rewrite !(eqTo_unknown _ _ Hunknown); unfold rpcMethods; simpl; tauto.
Qed.

Lemma unknown_tool_and_method_errors_witness :
  fst (executeTool 1000 (Some "get-portfolio") noParams None freshWorld) =
    Throw "Unknown tool: get-portfolio"
  /\ fst (handler 1000
            (rpcCall (Some 7%Z) "tools/call"
               (Some (mkRequestParams (Some "get-portfolio") None None noParams)))
            freshWorld) =
       RpcError (Some 7%Z) (-32603) "Unknown tool: get-portfolio"
  /\ fst (handler 1000 (rpcCall (Some 8%Z) "tools/run" None) freshWorld) =
       RpcError (Some 8%Z) (-32601) "Method not found".
Proof.
  assert (~ knownTool (Some "get-portfolio")) as Htool.
  { intros (name & [= <-] & Hin). simpl in Hin.
    repeat destruct Hin as [Hin|Hin]; try discriminate Hin. exact Hin. }
  assert (~ knownMethod (Some "tools/run")) as Hmethod.
  { intros (name & [= <-] & Hin). simpl in Hin.
    repeat destruct Hin as [Hin|Hin]; try discriminate Hin. exact Hin. }
  destruct unknown_tool_and_method_errors as (H1 & H2 & H3).
  split; [|split].
  - exact (H1 1000%Z (Some "get-portfolio") noParams None freshWorld Htool).
  - refine (H2 1000%Z (rpcCall (Some 7%Z) "tools/call" _)
              (rpcBody (Some 7%Z) "tools/call" _)
              (mkRequestParams (Some "get-portfolio") None None noParams)
              freshWorld _ eq_refl eq_refl Htool).
    split; [discriminate|split; reflexivity].
  - refine (H3 1000%Z (rpcCall (Some 8%Z) "tools/run" None)
              (rpcBody (Some 8%Z) "tools/run" None) freshWorld _ Hmethod).
    split; [discriminate|split; reflexivity].
Defined.

(** ** The cost basis of a holding *)

Lemma run_cons c rest w :
  run (c :: rest) w =
    let step := executeTool (call_at c) (call_tool c) (call_params c) (call_session c) w in
    (fst step :: fst (run rest (snd step)), snd (run rest (snd step))).
Proof.
  cbn [run]. destruct (executeTool _ _ _ _ w) as [r w1]. cbn [fst snd].
  by destruct (run rest w1).
Qed.








Lemma findHolding_app_new symbol hs q p :
  findHolding symbol hs = None ->
  findHolding symbol (hs ++ [mkHolding symbol q p])%list = Some (mkHolding symbol q p).
Proof.
  unfold findHolding. induction hs as [|h rest IH]; simpl.
  - intros _. unfold holds. simpl. by rewrite String.eqb_refl.
  - destruct (holds symbol h); [done|]. apply IH.
Qed.








(** ** Where a call leaves the world *)

Lemma opened_landed now sessionId w :
  opened now sessionId w = landed now sessionId (accountOf w sessionId) 0 w.
Proof.
  unfold opened, touched, landed. rewrite accountOf_refreshed, refreshed_sessions.
  by rewrite advance_0.
Qed.

Lemma advance_landed k now sessionId a n w :
  advance k (landed now sessionId a n w) = landed now sessionId a (k + n) w.
Proof. unfold landed, advance, setSessions. simpl. f_equal. lia. Qed.

Lemma filed_landed now sessionId a b n w :
  filed (sessionKey sessionId) b (landed now sessionId a n w) =
    landed now sessionId b (S n) w.
Proof.
  unfold filed, landed, advance, setSessions. simpl. f_equal.
  apply insert_insert_eq.
Qed.

Lemma getHistory_world now params w :
  exists n, snd (getHistory now params w) = advance n w.
Proof.
  destruct (p_symbol params) as [s|] eqn:Hs.
  2: { exists 0%nat. unfold getHistory. by rewrite Hs, advance_0. }
  destruct (stockOf (symbolOf s) (stocks (marketState w))) as [stock|] eqn:Hl.
  2: { exists 0%nat. unfold getHistory. rewrite Hs. unfold bind, getMarket.
       fold (symbolOf s). by rewrite Hl, advance_0. }
  rewrite (getHistory_listed _ _ _ s stock Hs Hl). eexists. reflexivity.
Qed.

Lemma getQuote_world params w : snd (getQuote params w) = w.
Proof.
  unfold getQuote. destruct (p_symbol params) as [s|]; [|done].
  unfold bind, getMarket. by destruct (stockOf _ _).
Qed.

Lemma getMarketStatus_world w : snd (getMarketStatus w) = advance 1 w.
Proof.
  unfold getMarketStatus, bind, getMarket, random. simpl.
  by destruct (head (sortByPrice (stocks (marketState w)))),
       (last (sortByPrice (stocks (marketState w)))).
Qed.

Lemma placeOrder_world now params id account w :
  snd (placeOrder now params id account w) = w
  \/ exists o account',
       snd (placeOrder now params id account w) = filed id (pushOrder o account') w.
Proof.
  destruct (p_symbol params) as [s|] eqn:Hs.
  2: { left. unfold placeOrder. by rewrite Hs. }
  destruct (stockOf (symbolOf s) (stocks (marketState w))) as [stock|] eqn:Hl.
  2: { left. unfold placeOrder. rewrite Hs. unfold bind, getMarket.
       fold (symbolOf s). by rewrite Hl. }
  rewrite (placeOrder_listed _ _ _ _ _ s stock Hs Hl). cbv zeta.
  destruct (settle _ _ _ _ _) as [reason|account']; [by left|].
  right. eexists _, _. reflexivity.
Qed.

(** Every call lands: the market is the refreshed one, some draws are
    taken, and only the account of the session addressed is written; a tool
    that does not write leaves that account as it was. *)
Lemma executeTool_lands now toolName params sessionId w :
  exists a n,
    snd (executeTool now toolName params sessionId w) = landed now sessionId a n w /\
    (writes toolName = false -> a = accountOf w sessionId).
Proof.
  rewrite executeTool_open. cbv zeta. unfold writes.
  destruct (toolOf toolName) as [[]|]; rewrite opened_landed.
  - exists createAccount, 0%nat. split; [|done].
    unfold bind, putAccount, ret. simpl. unfold landed, setSessions. simpl.
    f_equal. apply insert_insert_eq.
  - by exists (accountOf w sessionId), 0%nat.
  - by exists (accountOf w sessionId), 0%nat.
  - by exists (accountOf w sessionId), 0%nat.
  - destruct (getHistory_world now params (landed now sessionId (accountOf w sessionId) 0 w))
      as [n ->].
    exists (accountOf w sessionId), (n + 0)%nat. by rewrite advance_landed.
  - destruct (placeOrder_world now params (sessionKey sessionId) (accountOf w sessionId)
                (landed now sessionId (accountOf w sessionId) 0 w)) as [->|(o & a' & ->)].
    + by exists (accountOf w sessionId), 0%nat.
    + exists (pushOrder o a'), 1%nat. by rewrite filed_landed.
  - rewrite getQuote_world. by exists (accountOf w sessionId), 0%nat.
  - by exists (accountOf w sessionId), 0%nat.
  - rewrite getMarketStatus_world, advance_landed.
    by exists (accountOf w sessionId), (1 + 0)%nat.
  - by exists (accountOf w sessionId), 0%nat.
Qed.

(** ** Sessions *)

Lemma landed_other now sessionId a n w key :
  key <> sessionKey sessionId ->
  sessions (landed now sessionId a n w) !! key = sessions w !! key.
Proof. intros H. unfold landed. simpl. by rewrite lookup_insert_ne. Qed.

Lemma accountOf_landed now sessionId a n w :
  accountOf (landed now sessionId a n w) sessionId = a.
Proof. unfold accountOf, landed. simpl. by rewrite lookup_insert_eq. Qed.

Lemma marketState_landed now sessionId a n w :
  marketState (landed now sessionId a n w) = marketAt now w.
Proof. done. Qed.

(** X1. A call writes to no session but the one it addresses: whatever the
    tool, its arguments and its outcome (a result or a thrown error), the
    account stored under every other key is the one stored before, and the
    session addressed exists afterwards. *)
Theorem call_leaves_other_sessions now toolName params sessionId w key :
  key <> sessionKey sessionId ->
  let w' := snd (executeTool now toolName params sessionId w) in
  sessions w' !! key = sessions w !! key /\
  is_Some (sessions w' !! sessionKey sessionId).
Proof.
  intros Hkey w'. subst w'.
  destruct (executeTool_lands now toolName params sessionId w) as (a & n & -> & _).
  split; [by apply landed_other|].
  unfold landed. simpl. rewrite lookup_insert_eq. by eexists.
Qed.

Lemma call_leaves_other_sessions_witness :
  let w' := snd (executeTool 2000 (Some "init") noParams (Some "bob") aliceWorld) in
  sessions w' !! "alice" = sessions aliceWorld !! "alice" /\
  is_Some (sessions w' !! "bob").
Proof.
  apply (call_leaves_other_sessions 2000 (Some "init") noParams (Some "bob") aliceWorld
           "alice").
  discriminate.
Defined.

Lemma executeTool_reads now toolName params sessionId w anySession :
  writes toolName = false ->
  accountOf (snd (executeTool now toolName params sessionId w)) anySession =
  accountOf w anySession.
Proof.
  intros Hread.
  destruct (executeTool_lands now toolName params sessionId w) as (a & n & -> & Ha).
  rewrite (Ha Hread). unfold accountOf at 1, landed. simpl.
  destruct (decide (sessionKey sessionId = sessionKey anySession)) as [E|E].
  - rewrite <- E, lookup_insert_eq. unfold accountOf. by rewrite E.
  - by rewrite lookup_insert_ne.
Qed.

(** X2. The tools that only read (everything but init and place-order,
    unknown tools included) change no account: after the call the account
    of every session, the one addressed too, is what it was before. *)
Theorem reading_tools_keep_accounts now toolName params sessionId w :
  writes toolName = false ->
  forall anySession,
    accountOf (snd (executeTool now toolName params sessionId w)) anySession =
    accountOf w anySession.
Proof. intros Hread anySession. by apply executeTool_reads. Qed.

Lemma reading_tools_keep_accounts_witness :
  accountOf (snd (executeTool 9000 (Some "get-market-status") noParams (Some "bob")
                    aliceWorld)) (Some "alice") =
  accountOf aliceWorld (Some "alice").
Proof.
  exact (reading_tools_keep_accounts 9000 (Some "get-market-status") noParams (Some "bob")
           aliceWorld eq_refl (Some "alice")).
Defined.

(** X3. A call depends on its session id only through the key the id
    resolves to, and a missing id, an empty id and 'demo-session' resolve to
    the same key: such calls return the same result and leave the same
    world. *)
Theorem session_id_defaults_to_demo now toolName params w :
  sessionKey None = "demo-session" /\
  sessionKey (Some "") = "demo-session" /\
  forall sessionId sessionId',
    sessionKey sessionId = sessionKey sessionId' ->
    executeTool now toolName params sessionId w =
    executeTool now toolName params sessionId' w.
Proof.
  split; [done|]. split; [done|].
  intros sessionId sessionId' H. rewrite !executeTool_open. cbv zeta.
  unfold opened, touched, accountOf. by rewrite H.
Qed.

Lemma session_id_defaults_to_demo_witness :
  executeTool 1000 (Some "place-order") (orderParams "INFY" 2 "BUY") (Some "") freshWorld =
  executeTool 1000 (Some "place-order") (orderParams "INFY" 2 "BUY") (Some "demo-session")
    freshWorld.
Proof.
  exact (proj2 (proj2 (session_id_defaults_to_demo 1000 (Some "place-order")
                         (orderParams "INFY" 2 "BUY") freshWorld))
           (Some "") (Some "demo-session") eq_refl).
Defined.

(** ** The market across calls *)

Lemma round2_comp x y : x == y -> JS.round2 x = JS.round2 y.
Proof.
  intros H. unfold JS.round2.
  assert (Qfloor (Qabs x * 100 + (1 # 2)) = Qfloor (Qabs y * 100 + (1 # 2))) as ->.
  { apply Qfloor_comp. by rewrite H. }
  assert (Qle_bool 0 x = Qle_bool 0 y) as ->; [|done].
  by rewrite H.
Qed.

Lemma twoDecimals_cents x : twoDecimals x <-> exists m : Z, x == m # 100.
Proof.
  split.
  - intros H. destruct (round2_cents x) as (m & _ & _ & _ & E).
    unfold twoDecimals in H. rewrite E in H.
    destruct (Qle_bool 0 x); eexists; symmetry; exact H.
  - intros [m H]. unfold twoDecimals.
    rewrite (round2_comp _ _ H), round2_of_cents. by symmetry.
Qed.

Lemma twoDecimals_shift x (k : Z) : twoDecimals x -> twoDecimals (x + inject_Z k).
Proof.
  rewrite !twoDecimals_cents. intros [m H]. exists (m + 100 * k)%Z.
  rewrite H, Qmake_Qdiv, Qmake_Qdiv, inject_Z_plus, inject_Z_mult. field.
Qed.

Lemma tickFrom_keys rnd k l : map fst (tickFrom rnd k l) = map fst l.
Proof.
  revert k. induction l as [|[symbol s] rest IH]; intros k; simpl; [done|].
  by rewrite IH.
Qed.

(** The market a call works with, against the market it found. *)
Lemma marketAt_cases now w :
  ((now - lastUpdate (marketState w) <= 5000)%Z /\ marketAt now w = marketState w)
  \/ ((5000 < now - lastUpdate (marketState w))%Z /\
      marketAt now w =
        {| stocks := tickFrom (entropy w) (drawn w) (stocks (marketState w));
           lastUpdate := now;
           news := news (marketState w) |}).
Proof.
  unfold marketAt, refreshed. rewrite updateMarket_spec. unfold refreshMs.
  destruct (Z.ltb_spec 5000 (now - lastUpdate (marketState w))); [right|left]; by split.
Qed.

(** X4. No call adds, removes, renames or reorders an instrument, and none
    touches the news; [lastUpdate] never moves backwards (it stays, or it
    becomes the time of the call, which is then more than 5000 ms later);
    and prices that carry at most two decimals keep doing so.  This holds
    for every tool, known or not, whatever it returns. *)
Theorem call_keeps_market_shape now toolName params sessionId w :
  let m := marketState w in
  let m' := marketState (snd (executeTool now toolName params sessionId w)) in
  map fst (stocks m') = map fst (stocks m) /\
  news m' = news m /\
  (lastUpdate m' = lastUpdate m \/
   (lastUpdate m' = now /\ (lastUpdate m + 5000 < now)%Z)) /\
  (pricedInCents m -> pricedInCents m').
Proof.
  intros m m'. subst m'.
  destruct (executeTool_lands now toolName params sessionId w) as (a & n & -> & _).
  rewrite marketState_landed.
  split; [|split; [|split]].
  - destruct (marketAt_cases now w) as [[_ ->]|[_ ->]]; [done|apply tickFrom_keys].
  - by destruct (marketAt_cases now w) as [[_ ->]|[_ ->]].
  - destruct (marketAt_cases now w) as [[_ ->]|[H ->]]; [by left|right].
    simpl. fold m in H. split; [done|lia].
  - apply pricedInCents_refreshed.
Qed.

Lemma call_keeps_market_shape_witness :
  pricedInCents
    (marketState (snd (executeTool 6000 (Some "get-quote") (historyParams "tcs" None) None
                         freshWorld))).
Proof.
  apply (call_keeps_market_shape 6000 (Some "get-quote") (historyParams "tcs" None) None
           freshWorld).
  repeat constructor.
Defined.

(** X5. One call moves no price by more than five: with prices in cents
    and draws in the range of [Math.random], every instrument keeps its
    place and its symbol, and its price after the call lies within 5 of its
    price before. *)
Theorem call_moves_prices_by_five_at_most now toolName params sessionId w :
  pricedInCents (marketState w) ->
  drawsInRange w ->
  let m := marketState w in
  let m' := marketState (snd (executeTool now toolName params sessionId w)) in
  forall i symbol old,
    stocks m !! i = Some (symbol, old) ->
    exists new,
      stocks m' !! i = Some (symbol, new) /\
      price old - 5 <= price new /\ price new <= price old + 5.
Proof.
  intros Hcents Hdraws m m' i symbol old Hi. subst m'.
  destruct (executeTool_lands now toolName params sessionId w) as (a & n & -> & _).
  rewrite marketState_landed.
  destruct (marketAt_cases now w) as [[_ ->]|[_ ->]].
  - exists old. split; [done|]. split; lra.
  - exists (tick (entropy w (drawn w + i)%nat) old).
    split; [by apply tickFrom_lookup|].
    assert (twoDecimals (price old)) as Hold.
    { unfold pricedInCents in Hcents. rewrite Forall_lookup in Hcents.
      exact (Hcents i _ Hi). }
    destruct (Hdraws (drawn w + i)%nat) as [Hlo Hhi].
    destruct (moveOf_range _ Hlo Hhi) as [H1 H2].
    cbn [tick price].
    pose proof (twoDecimals_shift _ (-5) Hold) as Hdown.
    pose proof (twoDecimals_shift _ 5 Hold) as Hup.
    unfold twoDecimals in Hdown, Hup.
    change (inject_Z (-5)) with (-5 # 1) in Hdown. change (inject_Z 5) with 5 in Hup.
    split.
    + setoid_replace (price old - 5) with (price old + (-5 # 1)) using relation Qeq by ring.
      rewrite <- Hdown. apply round2_monotone. lra.
    + rewrite <- Hup. apply round2_monotone. lra.
Qed.

Lemma call_moves_prices_by_five_at_most_witness :
  exists new,
    stocks (marketState (snd (executeTool 6000 (Some "get-account") noParams None
                                freshWorld))) !! 4%nat = Some ("WIPRO", new) /\
    460 - 5 <= price new /\ price new <= 460 + 5.
Proof.
  assert (drawsInRange freshWorld) as Hdraws.
  { intros n. split; reflexivity || discriminate. }
  assert (pricedInCents (marketState freshWorld)) as Hcents.
  { repeat constructor. }
  exact (call_moves_prices_by_five_at_most 6000 (Some "get-account") noParams None freshWorld
           Hcents Hdraws 4%nat "WIPRO" (mkStock 460 DOWN) eq_refl).
Defined.

(** ** What a call does to the account it addresses *)

Lemma toolOf_placeOrder toolName :
  toolOf toolName = Some PlaceOrder -> toolName = Some "place-order".
Proof.
  destruct toolName as [name|]; [|done]. cbn [toolOf toolNames assoc].
  repeat match goal with
         | |- context [String.eqb ?a name] => destruct (String.eqb_spec a name) as [<-|_]
         end; try discriminate; done.
Qed.

(** The account of the session after a call: the one before; or the seeded
    one, after init; or the settled one with the order record pushed, after
    a place-order that answered COMPLETE. *)
Lemma executeTool_account now toolName params sessionId w :
  let r := executeTool now toolName params sessionId w in
  let before := accountOf w sessionId in
  let after := accountOf (snd r) sessionId in
  after = before
  \/ (toolOf toolName = Some ToolInit /\ after = createAccount)
  \/ (toolName = Some "place-order" /\
      exists s stock account',
        p_symbol params = Some s /\
        stockOf (symbolOf s) (stocks (marketAt now w)) = Some stock /\
        let execPrice := executionPrice (Some stock) params in
        let w1 := opened now sessionId w in
        settle (symbolOf s) (qtyOf params) (sideOf params) execPrice before
          = Settled account' /\
        fst r = Return (Complete (entropy w1 (drawn w1)) execPrice) /\
        after = pushOrder (orderOf now params s execPrice w1) account').
Proof.
  intros r before after. subst r after.
  destruct (writes toolName) eqn:Hw.
  2: { left. by apply executeTool_reads. }
  unfold writes in Hw. destruct (toolOf toolName) as [[]|] eqn:Htool; try discriminate.
  - right; left. split; [done|].
    rewrite executeTool_open, Htool. cbv zeta.
    unfold bind, putAccount, ret. simpl. unfold accountOf. simpl.
    by rewrite lookup_insert_eq.
  - apply toolOf_placeOrder in Htool as ->.
    destruct (p_symbol params) as [s|] eqn:Hs.
    2: { left. rewrite executeTool_placeOrder. unfold placeOrder. rewrite Hs.
         simpl. apply accountOf_opened. }
    destruct (stockOf (symbolOf s) (stocks (marketAt now w))) as [stock|] eqn:Hl.
    2: { left. rewrite executeTool_placeOrder. unfold placeOrder. rewrite Hs.
         unfold bind, getMarket. fold (symbolOf s). rewrite marketState_opened, Hl.
         simpl. apply accountOf_opened. }
    rewrite (placeOrder_call _ _ _ _ s stock Hs Hl). cbv zeta.
    destruct (settle _ _ _ _ _) as [reason|account'] eqn:Hsettle.
    + left. simpl. apply accountOf_opened.
    + right; right. split; [done|]. exists s, stock, account'.
      cbv zeta. simpl. by rewrite accountOf_filed.
Qed.

(** ** Holdings stay tidy *)

Lemma symbols_updateFound symbol f hs :
  (forall h, h_symbol (f h) = h_symbol h) ->
  map h_symbol (updateFound symbol f hs) = map h_symbol hs.
Proof.
  intros Hf. induction hs as [|h rest IH]; simpl; [done|].
  destruct (holds symbol h); simpl; [by rewrite Hf|by rewrite IH].
Qed.

Lemma findHolding_None symbol hs :
  findHolding symbol hs = None -> symbol ∉ map h_symbol hs.
Proof.
  unfold findHolding. induction hs as [|h rest IH]; simpl.
  - intros _. apply not_elem_of_nil.
  - destruct (holds symbol h) eqn:E; [done|]. intros H.
    apply not_elem_of_cons. split; [|by apply IH].
    intros ->. unfold holds in E. by rewrite String.eqb_refl in E.
Qed.

Lemma symbols_filter (keep : Holding -> bool) hs :
  sublist (map h_symbol (List.filter keep hs)) (map h_symbol hs).
Proof.
  induction hs as [|h rest IH]; simpl; [constructor|].
  destruct (keep h); simpl; by constructor.
Qed.

(** A settled order leaves no symbol held twice and holds nothing but what
    was held and the symbol ordered. *)
Lemma settle_symbols symbol qty side execPrice account account' :
  settle symbol qty side execPrice account = Settled account' ->
  NoDup (symbolsOf account) ->
  NoDup (symbolsOf account') /\
  forall held, held ∈ symbolsOf account' -> held = symbol \/ held ∈ symbolsOf account.
Proof.
  unfold settle, symbolsOf. intros Hsettle Hnodup.
  destruct (JS.eqTo side "BUY").
  - destruct (JS.lt _ _); [discriminate|]. injection Hsettle as <-. simpl.
    destruct (findHolding symbol (holdings account)) as [existing|] eqn:Hheld.
    + rewrite symbols_updateFound by done. auto.
    + rewrite map_app. simpl. split.
      * apply NoDup_app. split; [done|]. split; [|apply NoDup_singleton].
        intros x Hx Hy. apply list_elem_of_singleton in Hy as ->.
        by apply (findHolding_None _ _ Hheld).
      * intros held [?|Hy]%elem_of_app; [auto|].
        apply list_elem_of_singleton in Hy as ->. auto.
  - destruct (JS.eqTo side "SELL"); [|injection Hsettle as <-; auto].
    destruct (findHolding symbol (holdings account)) as [existing|]; [|discriminate].
    destruct (JS.lt _ _); [discriminate|]. injection Hsettle as <-. simpl.
    destruct (JS.isZero _).
    + split.
      * eapply sublist_NoDup; [|apply symbols_filter].
        by rewrite symbols_updateFound.
      * intros held Hin. right.
        eapply elem_of_sublist in Hin; [|apply symbols_filter].
        by rewrite symbols_updateFound in Hin.
    + rewrite symbols_updateFound by done. auto.
Qed.

Lemma assoc_same_keys {A : Type} k (l l' : list (string * A)) :
  map fst l = map fst l' -> is_Some (assoc k l) -> is_Some (assoc k l').
Proof.
  revert l'. induction l as [|[k1 v1] rest IH]; intros [|[k2 v2] rest']; simpl; try done.
  intros [= -> Hrest]. destruct (String.eqb k2 k); [by eexists|]. by apply IH.
Qed.

Lemma tidyHoldings_createAccount m :
  map fst (stocks m) = map fst (stocks (initialMarket 0)) ->
  tidyHoldings m createAccount.
Proof.
  intros Hkeys. split.
  - unfold symbolsOf. simpl. by apply (bool_decide_unpack _).
  - assert (forall symbol, is_Some (stockOf symbol (stocks (initialMarket 0))) ->
                           is_Some (stockOf symbol (stocks m))) as Hlisted.
    { intros symbol. by apply assoc_same_keys. }
    unfold symbolsOf. simpl. repeat constructor; apply Hlisted; by eexists.
Qed.

Lemma tidyHoldings_keys m m' a :
  map fst (stocks m) = map fst (stocks m') -> tidyHoldings m a -> tidyHoldings m' a.
Proof.
  intros Hkeys [Hnodup Hlisted]. split; [done|].
  eapply Forall_impl; [exact Hlisted|]. intros symbol. by apply assoc_same_keys.
Qed.

Lemma marketAt_keys now w :
  map fst (stocks (marketAt now w)) = map fst (stocks (marketState w)).
Proof.
  destruct (marketAt_cases now w) as [[_ ->]|[_ ->]]; [done|apply tickFrom_keys].
Qed.

Lemma tidyHoldings_accountOf w sessionId :
  tidyWorld w -> tidyHoldings (marketState w) (accountOf w sessionId).
Proof.
  intros [Hkeys Hall]. unfold accountOf.
  destruct (sessions w !! sessionKey sessionId) as [a|] eqn:E; [by eapply Hall|].
  by apply tidyHoldings_createAccount.
Qed.

Lemma executeTool_tidy now toolName params sessionId w :
  tidyWorld w -> tidyWorld (snd (executeTool now toolName params sessionId w)).
Proof.
  intros Htidy. pose proof Htidy as [Hkeys Hall].
  pose proof (executeTool_account now toolName params sessionId w) as Hacc.
  cbv zeta in Hacc.
  destruct (executeTool_lands now toolName params sessionId w) as (a & n & Hland & _).
  rewrite Hland in Hacc |- *. rewrite accountOf_landed in Hacc.
  assert (map fst (stocks (marketAt now w)) = map fst (stocks (initialMarket 0))) as Hkeys'.
  { by rewrite marketAt_keys. }
  split; [done|].
  intros key b Hb. rewrite marketState_landed.
  destruct (decide (key = sessionKey sessionId)) as [->|Hne].
  2: { rewrite landed_other in Hb by done.
       eapply tidyHoldings_keys; [|by eapply Hall]. by rewrite marketAt_keys. }
  unfold landed in Hb. simpl in Hb. rewrite lookup_insert_eq in Hb. injection Hb as <-.
  destruct Hacc as [->|[[_ ->]|(_ & s & stock & a' & Hs & Hl & Hsettle & _ & ->)]].
  - eapply tidyHoldings_keys; [|by apply tidyHoldings_accountOf].
    by rewrite marketAt_keys.
  - by apply tidyHoldings_createAccount.
  - cbv zeta in Hsettle.
    destruct (tidyHoldings_accountOf w sessionId Htidy) as [Hnodup Hlisted].
    destruct (settle_symbols _ _ _ _ _ _ Hsettle Hnodup) as [Hnodup' Hsub].
    split; [done|]. apply Forall_forall. intros held Hheld.
    destruct (Hsub held Hheld) as [->|Hin]; [by eexists|].
    rewrite Forall_forall in Hlisted.
    eapply assoc_same_keys; [|by apply Hlisted]. by rewrite marketAt_keys.
Qed.

Lemma run_snoc_invariant (P : World -> Prop) :
  (forall now toolName params sessionId w,
     P w -> P (snd (executeTool now toolName params sessionId w))) ->
  forall calls w, P w -> P (snd (run calls w)).
Proof.
  intros Hstep calls. induction calls as [|c rest IH]; intros w Hw; [done|].
  rewrite run_cons. cbv zeta. cbn [snd]. apply IH, Hstep, Hw.
Qed.

(** X6. Holdings stay well kept. If the market lists the instruments the
    server starts with and no stored account holds a symbol twice or holds
    an unlisted symbol, the same is true after any call; and it is true of
    every state the server reaches from start-up, whatever the times, the
    draws and the calls. *)
Theorem holdings_stay_tidy :
  (forall now toolName params sessionId w,
     tidyWorld w -> tidyWorld (snd (executeTool now toolName params sessionId w)))
  /\ (forall t0 rnd calls, tidyWorld (snd (run calls (initialWorld t0 rnd)))).
Proof.
  split; [apply executeTool_tidy|].
  intros t0 rnd calls. apply run_snoc_invariant; [apply executeTool_tidy|].
  split; [done|]. intros key a H. simpl in H. by rewrite lookup_empty in H.
Qed.

Lemma holdings_stay_tidy_witness :
  tidyWorld (snd (executeTool 2000 (Some "place-order") (orderParams "hdfc" 2 "BUY")
                    (Some "alice") aliceWorld)).
Proof.
  apply (proj1 holdings_stay_tidy).
  exact (proj2 holdings_stay_tidy 0%Z evenDraws
           [callOf 1000 "place-order" (orderParams "TCS" 3 "SELL") "alice"]).
Defined.

(** ** Orders and the calls that made them *)

Lemma settle_orders symbol qty side execPrice account account' :
  settle symbol qty side execPrice account = Settled account' ->
  orders account' = orders account.
Proof.
  unfold settle. intros H.
  repeat match type of H with
         | context [if ?c then _ else _] => destruct c
         | context [match findHolding ?a ?b with Some _ => _ | None => _ end] =>
             destruct (findHolding a b)
         end; by inversion H.
Qed.

(** Where the orders found after a run come from: the world the run
    started in, or a place-order call of the run. *)
Lemma run_orders calls :
  forall w key a o,
    sessions (snd (run calls w)) !! key = Some a -> o ∈ orders a ->
    (exists a0, sessions w !! key = Some a0 /\ o ∈ orders a0)
    \/ (exists i c,
          calls !! i = Some c /\
          call_tool c = Some "place-order" /\
          sessionKey (call_session c) = key /\
          o_time o = call_at c /\
          fst (run calls w) !! i = Some (Return (Complete (o_id o) (o_price o)))).
Proof.
  induction calls as [|c rest IH]; intros w key a o Ha Ho.
  { left. by exists a. }
  rewrite run_cons in Ha |- *. cbv zeta in Ha |- *. cbn [fst snd] in Ha |- *.
  set (r := executeTool (call_at c) (call_tool c) (call_params c) (call_session c) w) in *.
  destruct (IH (snd r) key a o Ha Ho) as [(a1 & Ha1 & Ho1)|(i & c' & Hi & Htool & Hkey & Ht & Hr)].
  2: { right. exists (S i), c'. by repeat split. }
  destruct (decide (key = sessionKey (call_session c))) as [->|Hne].
  2: { left. exists a1. split; [|done]. subst r.
       destruct (executeTool_lands (call_at c) (call_tool c) (call_params c)
                   (call_session c) w) as (b & n & Hland & _).
       rewrite Hland in Ha1. by rewrite landed_other in Ha1. }
  assert (a1 = accountOf (snd r) (call_session c)) as ->.
  { unfold accountOf. by rewrite Ha1. }
  pose proof (executeTool_account (call_at c) (call_tool c) (call_params c)
                (call_session c) w) as Hacc.
  cbv zeta in Hacc. fold r in Hacc.
  assert (o ∈ orders (accountOf w (call_session c)) ->
          exists a0, sessions w !! sessionKey (call_session c) = Some a0 /\ o ∈ orders a0)
    as Hold.
  { unfold accountOf. destruct (sessions w !! _) as [a0|]; [by exists a0|].
    simpl. by intros ?%not_elem_of_nil. }
  destruct Hacc as [E|[[_ E]|(Htool & s & stock & a' & Hs & Hl & Hsettle & Hr & E)]];
    rewrite E in Ho1.
  - left. by apply Hold.
  - by apply not_elem_of_nil in Ho1.
  - cbv zeta in Hsettle. simpl in Ho1. rewrite (settle_orders _ _ _ _ _ _ Hsettle) in Ho1.
    apply elem_of_app in Ho1 as [Ho1|Ho1]; [left; by apply Hold|].
    apply list_elem_of_singleton in Ho1 as ->.
    right. exists 0%nat, c. split; [done|]. split; [done|]. split; [done|].
    split; [done|]. cbn [lookup list_lookup]. by rewrite Hr.
Qed.

(** X7. Every order on the books was completed by a call. In any state
    the server reaches from start-up, each record in the orders of each
    session is the record of one place-order call of the run, made for that
    session at the time the record carries, and that call answered COMPLETE
    with the record's id and price. *)
Theorem orders_are_completed_calls t0 rnd calls :
  let results := fst (run calls (initialWorld t0 rnd)) in
  let w := snd (run calls (initialWorld t0 rnd)) in
  forall key a o,
    sessions w !! key = Some a -> o ∈ orders a ->
    exists i c,
      calls !! i = Some c /\
      call_tool c = Some "place-order" /\
      sessionKey (call_session c) = key /\
      o_time o = call_at c /\
      results !! i = Some (Return (Complete (o_id o) (o_price o))).
Proof.
  intros results w key a o Ha Ho.
  destruct (run_orders calls _ key a o Ha Ho) as [(a0 & Ha0 & _)|H]; [|done].
  simpl in Ha0. by rewrite lookup_empty in Ha0.
Qed.

Lemma orders_are_completed_calls_witness :
  exists i c,
    creepBuys !! i = Some c /\
    call_at c = 13000%Z /\
    fst (run creepBuys (initialWorld 0 creepDraws)) !! i =
      Some (Return (Complete (1 # 2) (46062 # 100))).
Proof.
  destruct (orders_are_completed_calls 0 creepDraws creepBuys "demo-session"
              (accountOf (snd (run creepBuys (initialWorld 0 creepDraws))) None)
              (mkOrder (1 # 2) "WIPRO" (JS.Num 1) (Some "BUY") (46062 # 100) 13000))
    as (i & c & Hi & _ & _ & Ht & Hr).
  - by vm_compute.
  - vm_compute. apply list_elem_of_In. simpl. tauto.
  - exists i, c. simpl in Ht. by repeat split.
Defined.

(** ** Accepted orders, to the cent *)


Lemma filter_updateFound symbol f hs :
  (forall h, h_symbol (f h) = h_symbol h) ->
  List.filter (fun h => negb (holds symbol h)) (updateFound symbol f hs) =
  List.filter (fun h => negb (holds symbol h)) hs.
Proof.
  intros Hf. induction hs as [|h rest IH]; simpl; [done|].
  destruct (holds symbol h) eqn:E; simpl.
  - unfold holds in *. by rewrite Hf, E.
  - by rewrite E, IH.
Qed.

Lemma filter_not_held symbol hs :
  findHolding symbol hs = None ->
  List.filter (fun h => negb (holds symbol h)) hs = hs.
Proof.
  unfold findHolding. induction hs as [|h rest IH]; simpl; [done|].
  destruct (holds symbol h); [done|]. intros H. simpl. by rewrite IH.
Qed.





(** X11. A quantity that does not parse is not refused. A BUY on a listed
    symbol whose [qty] is missing or not a number is answered COMPLETE
    whatever the balance, and leaves the balance [NaN]; and while the
    balance is [NaN] every BUY on a listed symbol is answered COMPLETE and
    the balance stays [NaN]. *)
Theorem unparsed_quantity_poisons_balance now params sessionId w s stock :
  p_symbol params = Some s ->
  sideOf params = Some "BUY" ->
  stockOf (symbolOf s) (stocks (marketAt now w)) = Some stock ->
  p_qty params = None \/ balance (accountOf w sessionId) = JS.NaN ->
  let r := executeTool now (Some "place-order") params sessionId w in
  (exists id, fst r = Return (Complete id (executionPrice (Some stock) params))) /\
  balance (accountOf (snd r) sessionId) = JS.NaN.
Proof.
  intros Hs Hside Hl Hnan r. subst r.
  rewrite (placeOrder_call _ _ _ _ s stock Hs Hl). cbv zeta.
  unfold settle. rewrite Hside. simpl.
  assert (JS.lt (balance (accountOf w sessionId))
            (JS.mul (qtyOf params) (JS.Num (executionPrice (Some stock) params))) = false
          /\ JS.sub (balance (accountOf w sessionId))
               (JS.mul (qtyOf params) (JS.Num (executionPrice (Some stock) params)))
             = JS.NaN) as [-> Hsub].
  { unfold qtyOf. destruct Hnan as [->| ->]; simpl.
    - by destruct (balance (accountOf w sessionId)).
    - done. }
  simpl. rewrite accountOf_filed. simpl. split; [by eexists|done].
Qed.

Lemma unparsed_quantity_poisons_balance_witness :
  balance (accountOf (snd (executeTool 1000 (Some "place-order")
                             (mkParams (Some "tcs") None (Some "BUY") None None None)
                             None freshWorld)) None) = JS.NaN.
Proof.
  exact (proj2 (unparsed_quantity_poisons_balance 1000
                  (mkParams (Some "tcs") None (Some "BUY") None None None) None freshWorld
                  "tcs" (mkStock 3450 UP) eq_refl eq_refl eq_refl (or_introl eq_refl))).
Defined.



Lemma refreshed_still now w :
  (now - lastUpdate (marketState w) <= 5000)%Z -> refreshed now w = w.
Proof.
  intros H. unfold refreshed. rewrite updateMarket_spec. unfold refreshMs.
  by destruct (Z.ltb_spec 5000 (now - lastUpdate (marketState w))); [lia|].
Qed.

Lemma filter_own_lot symbol q p :
  List.filter (fun h => negb (holds symbol h)) [mkHolding symbol q p] = [].
Proof. simpl. unfold holds. simpl. by rewrite String.eqb_refl. Qed.

(** X10. Buying and selling back inside one market window is a round
    trip. If a session buys a whole quantity of a listed symbol it does not
    hold, with a finite balance that covers it ([covers]: by more than the
    last digit), and sells the same quantity before the next market tick,
    both calls answer COMPLETE at the same price, the holdings are exactly
    what they were, the balance is back at its earlier value, [floatNoise]
    apart (it is debited and credited, not restored), the market is
    untouched, and the two order records have been appended. *)
Theorem buy_then_sell_round_trip now1 now2 sessionId w s stock b z :
  (now1 - lastUpdate (marketState w) <= 5000)%Z ->
  (now2 - lastUpdate (marketState w) <= 5000)%Z ->
  stockOf (symbolOf s) (stocks (marketState w)) = Some stock ->
  findHolding (symbolOf s) (holdings (accountOf w sessionId)) = None ->
  balance (accountOf w sessionId) = JS.Num b ->
  covers b (inject_Z z * executionPrice (Some stock) (orderParams s z "BUY")) ->
  let execPrice := executionPrice (Some stock) (orderParams s z "BUY") in
  let r1 := executeTool now1 (Some "place-order") (orderParams s z "BUY") sessionId w in
  let r2 := executeTool now2 (Some "place-order") (orderParams s z "SELL") sessionId
              (snd r1) in
  let before := accountOf w sessionId in
  let after := accountOf (snd r2) sessionId in
  (exists id1 id2,
     fst r1 = Return (Complete id1 execPrice) /\
     fst r2 = Return (Complete id2 execPrice) /\
     orders after =
       (orders before
          ++ [ mkOrder id1 (symbolOf s) (JS.Num (inject_Z z)) (Some "BUY") execPrice now1;
               mkOrder id2 (symbolOf s) (JS.Num (inject_Z z)) (Some "SELL") execPrice now2 ])%list)
  /\ holdings after = holdings before
  /\ (exists b', balance after = JS.Num b' /\
                 Qabs (b' - b) <= floatNoise b + floatNoise (inject_Z z * execPrice))
  /\ marketState (snd r2) = marketState w.
Proof.
  intros Hnow1 Hnow2 Hl Hheld Hb Hle execPrice r1 r2 before after.
  assert (marketAt now1 w = marketState w) as Hm1.
  { unfold marketAt. by rewrite refreshed_still. }
  assert (stockOf (symbolOf s) (stocks (marketAt now1 w)) = Some stock) as Hl1.
  { by rewrite Hm1. }
  pose proof (placeOrder_call now1 (orderParams s z "BUY") sessionId w s stock eq_refl Hl1)
    as E1.
  cbv zeta in E1. fold execPrice before in E1.
  unfold settle in E1. simpl in E1. fold before in Hheld, Hb. rewrite Hheld, Hb in E1.
  unfold qtyOf in E1. cbn [orderParams p_qty JS.parseInt JS.lt JS.sub JS.neg JS.add JS.mul] in E1.
  assert (JS.Qltb b (inject_Z z * execPrice) = false) as Hok.
  { apply Qltb_ge. by apply covers_le. }
  rewrite Hok in E1. simpl in E1.
  set (o1 := orderOf now1 (orderParams s z "BUY") s execPrice (opened now1 sessionId w)) in E1.
  set (a1 := pushOrder o1 _) in E1.
  assert (snd r1 = filed (sessionKey sessionId) a1 (opened now1 sessionId w)) as Hw1.
  { subst r1. by rewrite E1. }
  assert (marketState (snd r1) = marketState w) as Hmarket1.
  { rewrite Hw1. unfold filed. simpl. unfold opened, touched. simpl.
    by rewrite refreshed_still. }
  assert (marketAt now2 (snd r1) = marketState w) as Hm2.
  { unfold marketAt. rewrite refreshed_still; [done|]. by rewrite Hmarket1. }
  assert (stockOf (symbolOf s) (stocks (marketAt now2 (snd r1))) = Some stock) as Hl2.
  { by rewrite Hm2. }
  assert (accountOf (snd r1) sessionId = a1) as Ha1.
  { rewrite Hw1. apply accountOf_filed. }
  pose proof (placeOrder_call now2 (orderParams s z "SELL") sessionId (snd r1) s stock
                eq_refl Hl2) as E2.
  cbv zeta in E2. rewrite Ha1 in E2.
  change (executionPrice (Some stock) (orderParams s z "SELL")) with execPrice in E2.
  unfold settle in E2. simpl in E2.
  rewrite (findHolding_app_new _ _ _ _ Hheld) in E2.
  unfold qtyOf in E2. cbn [orderParams p_qty JS.parseInt h_qty JS.lt JS.sub JS.neg JS.add
                             JS.mul JS.isZero] in E2.
  assert (JS.Qltb (inject_Z z) (inject_Z z) = false) as Hsame by (apply Qltb_ge; lra).
  assert (Qeq_bool (inject_Z z + - inject_Z z) 0 = true) as Hzero
    by (apply Qeq_eq_bool; ring).
  rewrite Hsame, Hzero in E2.
  rewrite filter_updateFound in E2 by done.
  rewrite List.filter_app, (filter_not_held _ _ Hheld) in E2.
  rewrite filter_own_lot, app_nil_r in E2.
  subst after. fold r2 in E2. rewrite E2. cbn [fst snd].
  rewrite accountOf_filed. simpl. split; [|split; [|split]].
  - eexists _, _. split; [unfold r1; by rewrite E1|]. split; [reflexivity|].
    by rewrite <- app_assoc.
  - done.
  - eexists. split; [reflexivity|].
    change (Qabs (b + - (inject_Z z * execPrice) + inject_Z z * execPrice - b)
            <= floatNoise b + floatNoise (inject_Z z * execPrice)).
    setoid_replace (b + - (inject_Z z * execPrice) + inject_Z z * execPrice - b) with 0
      using relation Qeq by ring.
    pose proof (floatNoise_nonneg b). pose proof (floatNoise_nonneg (inject_Z z * execPrice)).
    change (Qabs 0) with 0. lra.
  - unfold opened, touched. simpl. unfold marketAt in Hm2. exact Hm2.
Qed.

Lemma buy_then_sell_round_trip_witness :
  let r1 := executeTool 1000 (Some "place-order") (orderParams "wipro" 7 "BUY") None
              freshWorld in
  let r2 := executeTool 4000 (Some "place-order") (orderParams "wipro" 7 "SELL") None
              (snd r1) in
  holdings (accountOf (snd r2) None) = holdings (accountOf freshWorld None)
  /\ exists b', balance (accountOf (snd r2) None) = JS.Num b' /\
                Qabs (b' - 100000) <= floatNoise 100000 + floatNoise (inject_Z 7 * 460).
Proof.
  intros r1 r2.
  destruct (buy_then_sell_round_trip 1000 4000 None freshWorld "wipro"
              (mkStock 460 DOWN) 100000 7
              ltac:(simpl; lia) ltac:(simpl; lia) eq_refl eq_refl eq_refl
              ltac:(unfold covers; discriminate)) as (_ & Hh & Hb & _).
  split; [exact Hh|exact Hb].
Defined.

(** ** Symbols and prices as the caller writes them *)

Lemma upperAscii_idem c : JS.upperAscii (JS.upperAscii c) = JS.upperAscii c.
Proof. by destruct c as [[] [] [] [] [] [] [] []]. Qed.

Lemma toUpperCase_idem s : JS.toUpperCase (JS.toUpperCase s) = JS.toUpperCase s.
Proof. induction s as [|c s IH]; simpl; [done|]. by rewrite upperAscii_idem, IH. Qed.

(** X13. Symbols are read without regard to ASCII case. Upper-casing is
    idempotent, and two calls of any tool that differ only in the spelling
    of a symbol with the same upper-case form return the same result and
    leave the same world. *)
Theorem symbols_ignore_case now toolName params sessionId w :
  (forall s, JS.toUpperCase (JS.toUpperCase s) = JS.toUpperCase s)
  /\ forall s s',
       JS.toUpperCase s = JS.toUpperCase s' ->
       executeTool now toolName (withSymbol (Some s) params) sessionId w =
       executeTool now toolName (withSymbol (Some s') params) sessionId w.
Proof.
  split; [apply toUpperCase_idem|].
  intros s s' H. rewrite !executeTool_open. cbv zeta.
  destruct (toolOf toolName) as [[]|]; try done.
  - unfold getHistory. cbn [withSymbol p_symbol p_days]. by rewrite H.
  - unfold placeOrder. cbn [withSymbol p_symbol p_qty p_side p_type].
    unfold executionPrice. cbn [withSymbol p_price]. by rewrite H.
  - unfold getQuote. cbn [withSymbol p_symbol]. by rewrite H.
Qed.

Lemma symbols_ignore_case_witness :
  executeTool 1000 (Some "get-quote") (withSymbol (Some "Infy") noParams) None freshWorld =
  executeTool 1000 (Some "get-quote") (withSymbol (Some "INFY") noParams) None freshWorld.
Proof.
  exact (proj2 (symbols_ignore_case 1000 (Some "get-quote") noParams None freshWorld)
           "Infy" "INFY" eq_refl).
Defined.

(** X14. The caller's price is not a limit. For a listed symbol whose
    market price is not zero, a place-order call executes at the market
    price whatever [price] argument it carries: replacing the argument
    changes neither the result nor the world left behind. *)
Theorem order_price_argument_is_ignored now params sessionId w s stock :
  p_symbol params = Some s ->
  stockOf (symbolOf s) (stocks (marketAt now w)) = Some stock ->
  ~ price stock == 0 ->
  forall limit,
    executionPrice (Some stock) (withPrice limit params) = price stock /\
    executeTool now (Some "place-order") (withPrice limit params) sessionId w =
    executeTool now (Some "place-order") params sessionId w.
Proof.
  intros Hs Hl Hprice limit.
  assert (forall p, executionPrice (Some stock) p = price stock) as Hexec.
  { intros p. unfold executionPrice. simpl.
    assert (Qeq_bool (price stock) 0 = false) as ->; [|done].
    apply not_true_iff_false. by intros E%Qeq_bool_eq. }
  split; [apply Hexec|].
  rewrite (placeOrder_call _ _ _ _ s stock Hs Hl).
  rewrite (placeOrder_call _ (withPrice limit params) _ _ s stock Hs Hl).
  cbv zeta. by rewrite !Hexec.
Qed.

Lemma order_price_argument_is_ignored_witness :
  executeTool 1000 (Some "place-order")
    (withPrice (Some 1) (orderParams "tcs" 5 "BUY")) None freshWorld =
  executeTool 1000 (Some "place-order") (orderParams "tcs" 5 "BUY") None freshWorld.
Proof.
  exact (proj2 (order_price_argument_is_ignored 1000 (orderParams "tcs" 5 "BUY") None
                  freshWorld "tcs" (mkStock 3450 UP) eq_refl eq_refl
                  ltac:(discriminate) (Some 1))).
Defined.

(** ** Missing and unlisted symbols *)

(** X15. The three tools that take a symbol fail the same way. Without a
    [symbol] argument get-history, place-order and get-quote throw the
    TypeError of upper-casing [undefined]; for a symbol written in ASCII
    whose upper-case form the market does not list they return, without
    throwing, the object that says 'Symbol not found' (an error object, or
    a REJECTED order).  Either way no account is changed. *)
Theorem symbol_tools_fail_alike now tool params sessionId w :
  In tool symbolTools ->
  let r := executeTool now (Some tool) params sessionId w in
  (p_symbol params = None -> fst r = Throw noSymbolError)
  /\ (forall s, p_symbol params = Some s ->
        asciiOnly s = true ->
        stockOf (symbolOf s) (stocks (marketAt now w)) = None ->
        fst r = Return (notFound tool))
  /\ (p_symbol params = None \/
      (exists s, p_symbol params = Some s /\
                 asciiOnly s = true /\
                 stockOf (symbolOf s) (stocks (marketAt now w)) = None) ->
      forall anySession, accountOf (snd r) anySession = accountOf w anySession).
Proof.
  intros Htool r. subst r.
  assert (tool = "get-history" \/ tool = "place-order" \/ tool = "get-quote") as Hcases.
  { simpl in Htool. intuition. }
  split; [|split].
  - intros Hs. rewrite executeTool_open.
    destruct Hcases as [-> | [-> | ->]]; cbv zeta; cbn [toolOf toolNames assoc String.eqb];
      simpl; unfold getHistory, placeOrder, getQuote; by rewrite Hs.
  - intros s Hs _ Hl. rewrite executeTool_open.
    destruct Hcases as [-> | [-> | ->]]; cbv zeta; cbn [toolOf toolNames assoc String.eqb];
      simpl; unfold getHistory, placeOrder, getQuote; rewrite Hs;
      unfold bind, getMarket; fold (symbolOf s); by rewrite marketState_opened, Hl.
  - intros Hbad anySession.
    destruct Hcases as [-> | [-> | ->]].
    + by apply executeTool_reads.
    + pose proof (executeTool_lands now (Some "place-order") params sessionId w)
        as (a & n & Hland & _).
      destruct (decide (sessionKey anySession = sessionKey sessionId)) as [E|E].
      2: { unfold accountOf. rewrite Hland. by rewrite landed_other. }
      assert (accountOf (snd (executeTool now (Some "place-order") params sessionId w))
                sessionId = accountOf w sessionId) as Hsame.
      { rewrite executeTool_placeOrder. unfold placeOrder.
        destruct Hbad as [Hs|(s & Hs & _ & Hl)]; rewrite Hs; [apply accountOf_opened|].
        unfold bind, getMarket. fold (symbolOf s). rewrite marketState_opened, Hl.
        apply accountOf_opened. }
      unfold accountOf in Hsame |- *. by rewrite E.
    + by apply executeTool_reads.
Qed.

Lemma symbol_tools_fail_alike_witness :
  fst (executeTool 1000 (Some "get-quote") noParams None freshWorld) = Throw noSymbolError
  /\ fst (executeTool 1000 (Some "place-order") (orderParams "acme" 1 "BUY") None freshWorld)
     = Return (Rejected "Symbol not found")
  /\ accountOf (snd (executeTool 1000 (Some "get-history") (historyParams "acme" None) None
                       freshWorld)) None = accountOf freshWorld None.
Proof.
  split; [|split].
  - apply (symbol_tools_fail_alike 1000 "get-quote" noParams None freshWorld);
      [simpl; tauto|reflexivity].
  - apply (proj1 (proj2 (symbol_tools_fail_alike 1000 "place-order"
                            (orderParams "acme" 1 "BUY") None freshWorld
                            ltac:(simpl; tauto))) "acme"); reflexivity.
  - apply (symbol_tools_fail_alike 1000 "get-history" (historyParams "acme" None) None
             freshWorld); [simpl; tauto|].
    right. exists "acme". split; [reflexivity|]. split; reflexivity.
Defined.

(** ** Quotes, market status, holdings *)

(** X16. A quote brackets the price. For a listed symbol get-quote returns
    the refreshed price and trend with one buy level of 100 and one sell
    level of 150, each within half a cent of 0.1% below and above the
    price, and changes nothing but the refresh and the session look-up;
    when the price is not negative and carries at most two decimals the buy
    level is at or below it and the sell level at or above it. *)
Theorem quote_brackets_price now params sessionId w s stock :
  p_symbol params = Some s ->
  stockOf (symbolOf s) (stocks (marketAt now w)) = Some stock ->
  let r := executeTool now (Some "get-quote") params sessionId w in
  exists bid ask,
    fst r = Return (Quote (symbolOf s) (price stock) (trend stock)
                      [mkLevel bid 100] [mkLevel ask 150]) /\
    snd r = opened now sessionId w /\
    Qabs (bid - price stock * (999 # 1000)) <= 1 # 200 /\
    Qabs (ask - price stock * (1001 # 1000)) <= 1 # 200 /\
    (0 <= price stock -> twoDecimals (price stock) ->
     bid <= price stock /\ price stock <= ask).
Proof.
  intros Hs Hl r. subst r. rewrite executeTool_open. cbv zeta.
  cbn [toolOf toolNames assoc String.eqb]. simpl.
  unfold getQuote. rewrite Hs. unfold bind, getMarket. fold (symbolOf s).
  rewrite marketState_opened, Hl. simpl.
  eexists _, _. split; [reflexivity|]. split; [done|].
  split; [apply round2_error|]. split; [apply round2_error|].
  intros Hpos Htwo. unfold twoDecimals in Htwo. split.
  - rewrite <- Htwo at 2. apply round2_monotone. lra.
  - rewrite <- Htwo at 1. apply round2_monotone. lra.
Qed.

Lemma quote_brackets_price_witness :
  exists bid ask,
    fst (executeTool 1000 (Some "get-quote") (historyParams "wipro" None) None freshWorld) =
      Return (Quote "WIPRO" 460 DOWN [mkLevel bid 100] [mkLevel ask 150]) /\
    bid <= 460 /\ 460 <= ask.
Proof.
  destruct (quote_brackets_price 1000 (historyParams "wipro" None) None freshWorld "wipro"
              (mkStock 460 DOWN) eq_refl eq_refl) as (bid & ask & Hr & _ & _ & _ & H).
  exists bid, ask. split; [exact Hr|]. apply H; [discriminate|reflexivity].
Defined.

Lemma insertByPrice_perm x l : insertByPrice x l ≡ₚ x :: l.
Proof.
  induction l as [|y rest IH]; simpl; [done|].
  destruct (Qle_bool _ _); [done|]. rewrite IH. apply Permutation_swap.
Qed.

Lemma sortByPrice_perm l : sortByPrice l ≡ₚ l.
Proof.
  induction l as [|x rest IH]; simpl; [done|].
  by rewrite insertByPrice_perm, IH.
Qed.

Lemma insertByPrice_sorted x l :
  StronglySorted dearer l -> StronglySorted dearer (insertByPrice x l).
Proof.
  induction 1 as [|y rest Hsorted IH Hall]; simpl.
  - repeat constructor.
  - destruct (Qle_bool (price (snd y)) (price (snd x))) eqn:E.
    + apply Qle_bool_iff in E. constructor; [by constructor|].
      constructor; [exact E|].
      eapply Forall_impl; [exact Hall|]. unfold dearer. intros z Hz. lra.
    + assert (price (snd x) <= price (snd y)) as E'.
      { apply Qlt_le_weak, Qnot_le_lt. intros H%Qle_bool_iff. congruence. }
      constructor; [done|].
      rewrite insertByPrice_perm. by constructor.
Qed.

Lemma sortByPrice_sorted l : StronglySorted dearer (sortByPrice l).
Proof.
  induction l as [|x rest IH]; simpl; [constructor|]. by apply insertByPrice_sorted.
Qed.

Lemma sorted_last_cheapest l z :
  StronglySorted dearer l -> last l = Some z -> Forall (fun a => dearer a z) l.
Proof.
  induction 1 as [|y rest Hsorted IH Hall]; [done|].
  destruct rest as [|y' rest'].
  - intros [= <-]. repeat constructor. unfold dearer. lra.
  - rewrite last_cons_cons. intros Hlast. constructor; [|by apply IH].
    rewrite Forall_forall in Hall. apply Hall.
    apply last_Some_elem_of in Hlast. exact Hlast.
Qed.

(** X17. Market status names the extremes. On a market with at least one
    instrument get-market-status answers OPEN with the symbols in market
    order, a top gainer whose price no instrument exceeds and a top loser
    whose price none undercuts, both taken from the market, and an index
    level from 18500 to 18600 when the draw is in the range of
    [Math.random]. *)
Theorem market_status_names_extremes now params sessionId w :
  stocks (marketAt now w) <> [] ->
  drawsInRange w ->
  let m := marketAt now w in
  exists index gainer loser,
    fst (executeTool now (Some "get-market-status") params sessionId w) =
      Return (MarketStatus "OPEN" index (fst gainer) (fst loser) (map fst (stocks m))) /\
    18500 <= index /\ index <= 18600 /\
    gainer ∈ stocks m /\ loser ∈ stocks m /\
    Forall (fun entry => price (snd loser) <= price (snd entry) /\
                         price (snd entry) <= price (snd gainer)) (stocks m).
Proof.
  intros Hne Hdraws m. rewrite executeTool_open. cbv zeta.
  cbn [toolOf toolNames assoc String.eqb]. simpl.
  unfold getMarketStatus, bind, getMarket, random. rewrite marketState_opened. fold m.
  cbn [fst snd entropy drawn marketState].
  pose proof (sortByPrice_perm (stocks m)) as Hperm.
  pose proof (sortByPrice_sorted (stocks m)) as Hsorted.
  destruct (sortByPrice (stocks m)) as [|gainer rest] eqn:Hsort.
  { apply Permutation_nil_l in Hperm. by symmetry in Hperm. }
  destruct (last (gainer :: rest)) as [loser|] eqn:Hlast.
  2: { by apply last_None in Hlast. }
  cbn [head]. unfold ret. cbn [fst].
  exists (18500 + entropy (opened now sessionId w) (drawn (opened now sessionId w)) * 100),
    gainer, loser.
  split; [done|].
  assert (entropy (opened now sessionId w) = entropy w) as ->.
  { unfold opened, touched. simpl. apply refreshed_entropy. }
  destruct (Hdraws (drawn (opened now sessionId w))) as [Hlo Hhi].
  split; [lra|]. split; [lra|].
  split; [rewrite <- Hperm; by constructor|].
  split; [rewrite <- Hperm; by apply last_Some_elem_of|].
  rewrite <- Hperm. apply Forall_forall. intros entry Hentry.
  pose proof (sorted_last_cheapest _ _ Hsorted Hlast) as Hcheap.
  rewrite Forall_forall in Hcheap. split; [by apply Hcheap|].
  apply StronglySorted_inv in Hsorted as [_ Hall]. rewrite Forall_forall in Hall.
  apply elem_of_cons in Hentry as [->|Hentry]; [lra|by apply Hall].
Qed.

Lemma market_status_names_extremes_witness :
  exists index (gainer loser : string * Stock),
    fst (executeTool 1000 (Some "get-market-status") noParams None freshWorld) =
      Return (MarketStatus "OPEN" index (fst gainer) (fst loser)
                ["TCS"; "RELIANCE"; "INFY"; "HDFC"; "WIPRO"; "TATAMOTORS"]) /\
    18500 <= index /\ index <= 18600.
Proof.
  assert (drawsInRange freshWorld) as Hdraws.
  { intros n. split; reflexivity || discriminate. }
  destruct (market_status_names_extremes 1000 noParams None freshWorld
              ltac:(discriminate) Hdraws) as (index & gainer & loser & Hr & Hlo & Hhi & _).
  exists index, gainer, loser. by repeat split.
Defined.






(** ** The length and the volumes of a history *)

Lemma historyFrom_volumes rnd k n today i currentClose :
  (forall j, 0 <= rnd j /\ rnd j < 1) ->
  Forall (fun c => (50000 <= c_volume c)%Z /\ (c_volume c < 1050000)%Z)
    (historyFrom rnd k n today i currentClose).
Proof.
  intros Hrnd. revert k i currentClose.
  induction n as [|n IH]; intros k i currentClose; [constructor|].
  cbn [historyFrom candleOf]. constructor; [|apply IH].
  cbn [c_volume]. destruct (Hrnd (S (S (S k)))) as [Hlo Hhi].
  set (x := rnd (S (S (S k))) * 1000000).
  assert (0 <= Qfloor x)%Z.
  { change 0%Z with (Qfloor 0). apply Qfloor_resp_le. unfold x. lra. }
  assert (Qfloor x < 1000000)%Z.
  { rewrite Zlt_Qlt. pose proof (Qfloor_le x).
    change (inject_Z 1000000) with 1000000. unfold x in *. lra. }
  lia.
Qed.

(** X19. How many days a history has. For a listed symbol and a [days]
    argument other than zero, get-history returns as many records as there
    are whole numbers from 0 below [days]: [days] rounded up, and none at
    all for a negative [days].  With draws in the range of [Math.random]
    every volume lies in [50000, 1050000), and the last record, when there
    is one, is dated the day of the call. *)
Theorem history_days_and_volumes now params sessionId w s stock d :
  p_symbol params = Some s ->
  stockOf (symbolOf s) (stocks (marketAt now w)) = Some stock ->
  p_days params = Some d ->
  ~ d == 0 ->
  drawsInRange w ->
  exists history,
    fst (executeTool now (Some "get-history") params sessionId w) =
      Return (History (symbolOf s) history) /\
    length history = Z.to_nat (Qceiling d) /\
    (d <= 0 -> history = []) /\
    Forall (fun c => (50000 <= c_volume c)%Z /\ (c_volume c < 1050000)%Z) history /\
    forall final, last history = Some final -> c_date final = dayOf now.
Proof.
  intros Hs Hl Hd Hnz Hdraws.
  rewrite (getHistory_call _ _ _ _ s stock Hs Hl). cbv zeta. rewrite Hd.
  assert (JS.orNum (Some d) 30 = d) as ->.
  { simpl. assert (Qeq_bool d 0 = false) as ->; [|done].
    apply not_true_iff_false. by intros E%Qeq_bool_eq. }
  fold (passes d).
  eexists. split; [reflexivity|]. split; [|split; [|split]].
  - by rewrite length_reverse, historyFrom_length.
  - intros Hneg. assert (passes d = 0%nat) as ->; [|done].
    unfold passes.
    assert (Qceiling d <= Qceiling 0)%Z as Hc by by apply Qceiling_resp_le.
    change (Qceiling 0) with 0%Z in Hc. lia.
  - apply Forall_reverse, historyFrom_volumes.
    unfold opened, touched. simpl. rewrite refreshed_entropy. apply Hdraws.
  - intros final. rewrite last_reverse. intros Hhead.
    apply historyFrom_head in Hhead as [_ ->]. lia.
Qed.

Lemma history_days_and_volumes_witness :
  exists history,
    fst (executeTool 1000 (Some "get-history") (historyParams "tcs" (Some (5 # 2))) None
           freshWorld) = Return (History "TCS" history) /\
    length history = 3%nat.
Proof.
  assert (drawsInRange freshWorld) as Hdraws.
  { intros n. split; reflexivity || discriminate. }
  destruct (history_days_and_volumes 1000 (historyParams "tcs" (Some (5 # 2))) None
              freshWorld "tcs" (mkStock 3450 UP) (5 # 2) eq_refl eq_refl eq_refl
              ltac:(discriminate) Hdraws) as (history & Hr & Hlen & _).
  exists history. split; [exact Hr|exact Hlen].
Defined.

(** ** Sessions on first reference *)

Lemma touched_idem sessionId w :
  touched sessionId (touched sessionId w) = touched sessionId w.
Proof.
  unfold touched at 1. rewrite accountOf_touched. unfold touched, setSessions. simpl.
  by rewrite insert_insert_eq.
Qed.

(** X23. A session is seeded on first reference and never again.
    [getSession] returns the key an id resolves to with the account stored
    under it, or with the seeded account (balance 100000) when none is
    stored; afterwards that account is stored under the key, no other key
    has changed, a world that already had the session is left exactly as it
    was, and a second look-up returns the same account and changes
    nothing. *)
Theorem getSession_seeds_once sessionId w :
  let r := getSession sessionId w in
  let key := sessionKey sessionId in
  fst r = Return (key, accountOf w sessionId) /\
  sessions (snd r) !! key = Some (accountOf w sessionId) /\
  (forall other, other <> key -> sessions (snd r) !! other = sessions w !! other) /\
  (sessions w !! key = None -> accountOf w sessionId = createAccount) /\
  (is_Some (sessions w !! key) -> snd r = w) /\
  getSession sessionId (snd r) = (fst r, snd r).
Proof.
  intros r key. subst r. rewrite getSession_spec. cbn [fst snd].
  split; [done|]. split; [|split; [|split; [|split]]].
  - unfold touched. simpl. apply lookup_insert_eq.
  - intros other Hne. unfold touched. simpl. by rewrite lookup_insert_ne.
  - intros Hnone. unfold accountOf. fold key. by rewrite Hnone.
  - intros [a Ha]. unfold touched, accountOf. fold key. rewrite Ha.
    rewrite insert_id by done. by destruct w.
  - by rewrite getSession_spec, accountOf_touched, touched_idem.
Qed.

Lemma getSession_seeds_once_witness :
  accountOf freshWorld (Some "carol") = createAccount /\
  snd (getSession (Some "alice") aliceWorld) = aliceWorld.
Proof.
  split.
  - apply (getSession_seeds_once (Some "carol") freshWorld). reflexivity.
  - apply (getSession_seeds_once (Some "alice") aliceWorld). by eexists.
Defined.

(** ** Requests *)

Lemma handler_not_options now req w :
  req_method req <> "OPTIONS" ->
  handler now req w =
    let body := bodyOf req in
    if JS.eqTo (jsonrpc body) "2.0" then handleRpc now body w
    else
      let sessionId := JS.orStr (x_session_id req) (b_sessionId body) in
      match JS.truthyStr (b_tool body) with
      | None => (JsonError 400 "Missing tool parameter", w)
      | Some tool =>
          let simpleParams :=
            match b_params body with Some ps => rp_fields ps | None => noParams end in
          match executeTool now (Some tool) simpleParams sessionId w with
          | (Return result, w') => (Json 200 result, w')
          | (Throw message, w') => (JsonError 500 message, w')
          end
      end.
Proof. intros H%String.eqb_neq. unfold handler. by rewrite H. Qed.

Lemma handleRpc_no_tool now body w :
  b_method body <> Some "tools/call" -> snd (handleRpc now body w) = w.
Proof.
  intros H. unfold handleRpc. rewrite (eqTo_false _ "tools/call" H).
  repeat match goal with
         | |- context [if ?c then _ else _] => destruct c
         | |- context [match b_params body with _ => _ end] => destruct (b_params body)
         end; done.
Qed.

(** X20. Requests that run no tool change nothing. An OPTIONS request is
    answered with an empty 200, a plain request without a tool name with
    the 400 'Missing tool parameter', and every JSON-RPC method but
    tools/call (the handshake, ping, the catalogues, resources/read,
    unknown methods) with its answer; in all these cases sessions, market
    and draws are left exactly as they were. *)
Theorem requests_without_tool_change_nothing now req w :
  runsNoTool req ->
  snd (handler now req w) = w /\
  (req_method req = "OPTIONS" -> fst (handler now req w) = EndWith 200) /\
  (req_method req <> "OPTIONS" -> jsonrpc (bodyOf req) <> Some "2.0" ->
   fst (handler now req w) = JsonError 400 "Missing tool parameter").
Proof.
  intros Hquiet.
  destruct (String.eqb_spec (req_method req) "OPTIONS") as [Hopt|Hopt].
  { unfold handler. rewrite Hopt. simpl. by repeat split. }
  destruct Hquiet as [?|[[Hrpc Hmethod]|[Hplain Htool]]]; [done| |].
  - rewrite handler_not_options by done. cbv zeta.
    apply eqTo_true in Hrpc. rewrite Hrpc.
    split; [by apply handleRpc_no_tool|]. split; [done|].
    intros _ H. by apply eqTo_true in Hrpc.
  - rewrite handler_not_options by done. cbv zeta.
    rewrite (eqTo_false _ _ Hplain), Htool. by repeat split.
Qed.

Lemma requests_without_tool_change_nothing_witness :
  snd (handler 9000 (rpcCall (Some 1%Z) "tools/list" None) aliceWorld) = aliceWorld
  /\ fst (handler 9000 (mkRequest "OPTIONS" None None) aliceWorld) = EndWith 200
  /\ fst (handler 9000 (mkRequest "POST" None None) aliceWorld) =
       JsonError 400 "Missing tool parameter".
Proof.
  split; [|split].
  - apply (requests_without_tool_change_nothing 9000 (rpcCall (Some 1%Z) "tools/list" None)).
    right; left. split; [reflexivity|discriminate].
  - apply (requests_without_tool_change_nothing 9000 (mkRequest "OPTIONS" None None));
      [by left|reflexivity].
  - apply (requests_without_tool_change_nothing 9000 (mkRequest "POST" None None));
      [|discriminate|discriminate].
    right; right. split; [discriminate|reflexivity].
Defined.

Lemma handleRpc_sessions now body w key :
  key <> defaultSession ->
  sessions (snd (handleRpc now body w)) !! key = sessions w !! key.
Proof.
  intros Hkey.
  destruct (decide (b_method body = Some "tools/call")) as [Hm|Hm].
  2: { by rewrite handleRpc_no_tool. }
  unfold handleRpc. rewrite Hm. cbn [JS.eqTo]. simpl.
  destruct (b_params body) as [ps|]; [|done].
  set (args := match rp_arguments ps with Some a => a | None => noParams end).
  destruct (executeTool_lands now (rp_name ps) args (Some defaultSession) w)
    as (a & n & Hland & _).
  destruct (executeTool now (rp_name ps) args (Some defaultSession) w) as [[result|message] w'];
    simpl in *; subst w'; by apply landed_other.
Qed.

(** X22. A request writes to one session at most, and JSON-RPC requests
    all share one. Whatever the request and its outcome, the account stored
    under any key other than the one the request addresses is left as it
    was; a JSON-RPC request addresses 'demo-session' whatever session id
    its header or body carries, and a plain request addresses the header's
    id, or the body's when the header has none. *)
Theorem request_writes_only_addressed_session now req w key :
  key <> addressed req ->
  sessions (snd (handler now req w)) !! key = sessions w !! key.
Proof.
  intros Hkey.
  destruct (String.eqb_spec (req_method req) "OPTIONS") as [Hopt|Hopt].
  { unfold handler. by rewrite Hopt. }
  rewrite handler_not_options by done. cbv zeta. unfold addressed in Hkey.
  destruct (JS.eqTo (jsonrpc (bodyOf req)) "2.0"); [by apply handleRpc_sessions|].
  destruct (JS.truthyStr (b_tool (bodyOf req))) as [tool|]; [|done].
  set (args := match b_params (bodyOf req) with Some ps => rp_fields ps | None => noParams end).
  set (sid := JS.orStr (x_session_id req) (b_sessionId (bodyOf req))) in *.
  destruct (executeTool_lands now (Some tool) args sid w) as (a & n & Hland & _).
  destruct (executeTool now (Some tool) args sid w) as [[result|message] w'];
    simpl in *; subst w'; by apply landed_other.
Qed.

Lemma request_writes_only_addressed_session_witness :
  sessions (snd (handler 2000
                   {| req_method := "POST"; x_session_id := Some "alice";
                      req_body := Some (rpcBody (Some 3%Z) "tools/call"
                                          (Some (mkRequestParams (Some "init") None None
                                                   noParams))) |}
                   aliceWorld)) !! "alice"
  = sessions aliceWorld !! "alice".
Proof.
  apply request_writes_only_addressed_session. discriminate.
Defined.

(** X21. What a JSON-RPC request is answered with. Every answer to a
    request marked [jsonrpc: "2.0"] (OPTIONS apart) is a JSON-RPC result or
    error carrying the id of the request, with one exception: resources/read
    without a [params] object escapes as an HTTP 500.  The error codes tell
    the cases apart: -32603 comes only from tools/call, -32602 only from
    resources/read with another uri than market://alerts, and -32601 only
    from a method outside the adapter's list. *)
Theorem rpc_answers_carry_id_and_code now req body w :
  rpcRequest req body ->
  let answer := fst (handler now req w) in
  (exists result, answer = RpcResult (b_id body) result)
  \/ (exists message,
        answer = RpcError (b_id body) (-32603) message /\
        b_method body = Some "tools/call")
  \/ (answer = RpcError (b_id body) (-32602) "Resource not found" /\
      b_method body = Some "resources/read" /\
      exists ps, b_params body = Some ps /\ rp_uri ps <> Some "market://alerts")
  \/ (answer = RpcError (b_id body) (-32601) "Method not found" /\
      ~ knownMethod (b_method body))
  \/ (answer = JsonError 500 (noParamsError "uri") /\
      b_method body = Some "resources/read" /\ b_params body = None).
Proof.
  intros (Hopt & Hbody & Hrpc) answer. subst answer.
  rewrite handler_not_options by done. cbv zeta. unfold bodyOf. rewrite Hbody, Hrpc.
  cbn [JS.eqTo]. rewrite String.eqb_refl. unfold handleRpc.
  destruct (JS.eqTo (b_method body) "initialize") eqn:E1; [left; by eexists|].
  destruct (JS.eqTo (b_method body) "notifications/initialized") eqn:E2; [left; by eexists|].
  destruct (JS.eqTo (b_method body) "ping") eqn:E3; [left; by eexists|].
  destruct (JS.eqTo (b_method body) "tools/list") eqn:E4; [left; by eexists|].
  destruct (JS.eqTo (b_method body) "resources/list") eqn:E5; [left; by eexists|].
  destruct (JS.eqTo (b_method body) "resources/read") eqn:E6.
  { apply eqTo_true in E6. destruct (b_params body) as [ps|].
    - destruct (JS.eqTo (rp_uri ps) "market://alerts") eqn:Euri; [left; by eexists|].
      right; right; left. split; [done|]. split; [done|]. exists ps. split; [done|].
      intros H%eqTo_true. congruence.
    - right; right; right; right. by repeat split. }
  destruct (JS.eqTo (b_method body) "prompts/list") eqn:E7; [left; by eexists|].
  destruct (JS.eqTo (b_method body) "tools/call") eqn:E8.
  { apply eqTo_true in E8. destruct (b_params body) as [ps|].
    - destruct (executeTool _ _ _ _ _) as [[result|message] w'].
      + left. by eexists.
      + right; left. by eexists.
    - right; left. by eexists. }
  right; right; right; left. split; [done|].
  intros (name & Hm & Hin). rewrite Hm in *. simpl in Hin.
  assert (forall s, String.eqb name s = false -> name <> s) as Hne.
  { intros s H. by apply String.eqb_neq. }
  cbn [JS.eqTo] in *.
  destruct Hin as [<-|[<-|[<-|[<-|[<-|[<-|[<-|[<-|[]]]]]]]]]; by rewrite String.eqb_refl in *.
Qed.

Lemma rpc_answers_carry_id_and_code_witness :
  exists result,
    fst (handler 1000 (rpcCall (Some 5%Z) "ping" None) freshWorld) =
      RpcResult (Some 5%Z) result.
Proof.
  destruct (rpc_answers_carry_id_and_code 1000 (rpcCall (Some 5%Z) "ping" None)
              (rpcBody (Some 5%Z) "ping" None) freshWorld)
    as [H|[(m & _ & H)|[(_ & H & _)|[(_ & H)|(_ & H & _)]]]];
    [split; [discriminate|split; reflexivity] | exact H | discriminate H | discriminate H
    | | discriminate H].
  exfalso. apply H. exists "ping". split; [reflexivity|]. simpl. tauto.
Defined.
